(** * SocksProxyAgent: a shallow embedding of [src/agent.ts]

    The agent parses one or several SOCKS proxy specifications into a chain
    of descriptors ([parseSocksProxy], the constructor) and, per request,
    resolves the destination, opens the tunnel through the chain and
    optionally starts TLS over it ([callback], [omit]).

    Modelling choices:
    - a string is the UTF-8 encoding of the JavaScript string (a byte that
      is not part of a UTF-8 sequence is read as the code unit of that
      value);
    - JavaScript values are the inductive [value]. A [number] is an integer
      ([Int], of any size: [parseInt] rounds to a double before it builds
      one), a finite number that is not an integer ([Fraction], given by
      the decimal JavaScript prints for it), an infinity or NaN;
    - exceptions are the [Throw] branch of [result];
    - an object is a plain object: a finite map from property names to
      writable data properties that carry their [enumerable] attribute, with
      [Object.prototype] as its prototype. Objects that are shared and
      written to live in a [Store]. An assignment that would give an object
      another prototype leads out of the plain objects: [set] and [omit],
      which model assignments, are [None] there;
    - the DNS resolver, the SOCKS client and the TLS library are outside the
      repository: [callback] is a program over their calls ([Prog]) and is
      run against an arbitrary environment, with a trace of the calls made.
*)

From stdpp Require Import base option list strings gmap fin_maps pretty.
From Stdlib Require Import ZArith Lia Ascii String.

Open Scope string_scope.
Open Scope list_scope.
Open Scope Z_scope.

(** ** JavaScript values *)

(** A decimal digit other than 0. *)
Inductive digit19 : Type := D1 | D2 | D3 | D4 | D5 | D6 | D7 | D8 | D9.

(** [Int z] is the integer z, and [Int 0] stands for 0 and -0 alike.
    [Fraction negative front last places] is the finite number that is not
    an integer and that JavaScript prints with the decimal digits of
    [front] followed by [last], the final [places] of them after the
    decimal point: 1.5 is [Fraction false 1 D5 1]. *)
Inductive number : Type :=
| Int (z : Z)
| NaN
| Infinity (negative : bool)
| Fraction (negative : bool) (front : N) (last : digit19) (places : positive).

(** [net.Socket]: a handle. *)
Definition Socket : Type := nat.
Definition loc : Type := nat.

Inductive value : Type :=
| VUndefined
| VNull
| VBool (b : bool)
| VNumber (n : number)
| VString (s : string)
| VSocket (s : Socket)
| VRef (l : loc).

#[global] Instance digit19_eq_dec : EqDecision digit19.
Proof. solve_decision. Defined.

#[global] Instance number_eq_dec : EqDecision number.
Proof. solve_decision. Defined.

#[global] Instance value_eq_dec : EqDecision value.
Proof. solve_decision. Defined.

(** [!n] is true for 0, -0 and NaN. *)
Definition number_truthy (n : number) : bool :=
  match n with
  | Int z => negb (z =? 0)
  | NaN => false
  | Infinity _ | Fraction _ _ _ _ => true
  end.

(** ** Doubles *)

(** The integer nearest to [a >= 0] that a double holds: [a] itself when it
    fits in 53 bits, otherwise [a] rounded to 53 significant bits, to
    nearest and to an even last bit in a tie. *)
Definition round_magnitude (a : Z) : Z :=
  let bits := Z.log2 a + 1 in
  if bits <=? 53 then a
  else
    let shift := bits - 53 in
    let q := a / 2 ^ shift in
    let r := a mod 2 ^ shift in
    let half := 2 ^ (shift - 1) in
    let q := if (half <? r) || ((r =? half) && Z.odd q) then q + 1 else q in
    q * 2 ^ shift.

(** The Number value for the integer [v]: what is at or beyond 2^1024 once
    rounded is an infinity. *)
Definition to_double (v : Z) : number :=
  let m := round_magnitude (Z.abs v) in
  if 2 ^ 1024 <=? m then Infinity (v <? 0) else Int (Z.sgn v * m).

(** ** [Number::toString] *)

Definition digit_count (a : Z) : Z := Z.of_nat (String.length (pretty a)).

(** The multiple of [10 ^ (digit_count a - k)] that reads back as the
    double [a > 0], for the least [k] from the one given: the nearer to [a]
    of the two around it, the one with an even last digit in a tie. *)
Fixpoint shortest_from (fuel : nat) (k : Z) (a : Z) : Z :=
  match fuel with
  | O => a
  | S fuel =>
      let unit := 10 ^ (digit_count a - k) in
      let lo := a / unit * unit in
      let hi := lo + unit in
      let lo_ok := bool_decide (to_double lo = Int a) in
      let hi_ok := bool_decide (to_double hi = Int a) in
      if lo_ok && hi_ok then
        if a - lo <? hi - a then lo
        else if hi - a <? a - lo then hi
        else if Z.even (lo / unit) then lo else hi
      else if lo_ok then lo
      else if hi_ok then hi
      else shortest_from fuel (k + 1) a
  end.

Definition shortest (a : Z) : Z :=
  shortest_from (Z.to_nat (digit_count a)) 1 a.

Fixpoint strip_zeros (digits : string) : string :=
  match digits with
  | EmptyString => EmptyString
  | String c rest =>
      match strip_zeros rest with
      | EmptyString => if bool_decide (c = "0"%char) then EmptyString
                       else String c EmptyString
      | rest => String c rest
      end
  end.

Fixpoint zeros (n : nat) : string :=
  match n with
  | O => EmptyString
  | S n => String "0" (zeros n)
  end.

(** [d.ddd] from the digits [dddd]. *)
Definition point_after_first (digits : string) : string :=
  match digits with
  | String d EmptyString => digits
  | String d rest => String d ("." +:+ rest)
  | EmptyString => EmptyString
  end.

(** A positive integer double: in full up to 21 digits, with an exponent
    beyond. *)
Definition print_magnitude (a : Z) : string :=
  let v := if a <=? 2 ^ 53 then a else shortest a in
  let n := digit_count v in
  if n <=? 21 then pretty v
  else point_after_first (strip_zeros (pretty v)) +:+ "e+" +:+ pretty (n - 1).

Definition digit19_value (d : digit19) : N :=
  match d with
  | D1 => 1 | D2 => 2 | D3 => 3 | D4 => 4 | D5 => 5
  | D6 => 6 | D7 => 7 | D8 => 8 | D9 => 9
  end%N.

Definition print_fraction (front : N) (last : digit19) (places : positive)
  : string :=
  let digits := pretty (10 * front + digit19_value last)%N in
  let k := Z.of_nat (String.length digits) in
  let n := k - Z.pos places in
  if 0 <? n then
    String.substring 0 (Z.to_nat n) digits +:+ "."
    +:+ String.substring (Z.to_nat n) (Z.to_nat (k - n)) digits
  else if -6 <? n then "0." +:+ zeros (Z.to_nat (- n)) +:+ digits
  else point_after_first digits +:+ "e-" +:+ pretty (1 - n).

Definition sign_text (negative : bool) : string :=
  if negative then "-" else EmptyString.

Definition print_number (n : number) : string :=
  match n with
  | Int z =>
      if z =? 0 then "0"
      else sign_text (z <? 0) +:+ print_magnitude (Z.abs z)
  | NaN => "NaN"
  | Infinity negative => sign_text negative +:+ "Infinity"
  | Fraction negative front last places =>
      sign_text negative +:+ print_fraction front last places
  end.

(** [!s] is true for the empty string only. *)
Definition string_truthy (s : string) : bool :=
  match s with
  | EmptyString => false
  | String _ _ => true
  end.

Definition truthy (v : value) : bool :=
  match v with
  | VUndefined | VNull => false
  | VBool b => b
  | VNumber n => number_truthy n
  | VString s => string_truthy s
  | VSocket _ | VRef _ => true
  end.

(** A field of type [string | null | undefined]: [None] is null or undefined. *)
Definition opt_truthy (o : option string) : bool :=
  match o with
  | Some s => string_truthy s
  | None => false
  end.

(** [a || b] on such fields. *)
Definition opt_or (a b : option string) : option string :=
  if opt_truthy a then a else b.

(** Template-literal conversion [${v}]. *)
Definition to_string (v : value) : string :=
  match v with
  | VUndefined => "undefined"
  | VNull => "null"
  | VBool true => "true"
  | VBool false => "false"
  | VNumber n => print_number n
  | VString s => s
  | VSocket _ | VRef _ => "[object Object]"
  end.

(** ** Exceptions *)

(** [TypeError] and [Error] are the two classes the agent throws;
    [Rejection] stands for what the resolver and the libraries report. *)
Inductive error : Type :=
| TypeError (message : string)
| Error (message : string)
| Rejection (reason : string).

Inductive result (A : Type) : Type :=
| OK (a : A)
| Throw (e : error).
Arguments OK {A} a.
Arguments Throw {A} e.

Definition bind_result {A B} (r : result A) (f : A -> result B) : result B :=
  match r with
  | OK a => f a
  | Throw e => Throw e
  end.

Fixpoint map_result {A B} (f : A -> result B) (l : list A) : result (list B) :=
  match l with
  | [] => OK []
  | a :: rest =>
      bind_result (f a) (fun b =>
      bind_result (map_result f rest) (fun bs => OK (b :: bs)))
  end.

Definition dquote : string := String "034"%char EmptyString.

Definition no_host_message : string :=
  "No " +:+ dquote +:+ "host" +:+ dquote.

Definition bad_protocol_message (protocol : string) : string :=
  "A " +:+ dquote +:+ "socks" +:+ dquote +:+ " protocol must be specified! Got: "
  +:+ protocol.

Definition bad_type_message (type : value) : string :=
  dquote +:+ "type" +:+ dquote +:+ " must be 4 or 5, got: " +:+ to_string type.

Definition no_proxy_message : string :=
  "a SOCKS proxy server `host` and `port` must be specified!".

Definition no_host_defined_message : string := "No `host` defined!".

(** ** [parseInt(s, 10)] and [String.prototype.split] *)

Definition code (c : ascii) : Z := Z.of_nat (nat_of_ascii c).

(** White space and line terminators that take one byte: tab, line feed,
    vertical tab, form feed, carriage return, space, and U+00A0 as a byte
    of its own. *)
Definition is_white_space (c : ascii) : bool :=
  let n := code c in
  ((9 <=? n) && (n <=? 13)) || (n =? 32) || (n =? 160).

(** U+00A0 in UTF-8. *)
Definition is_white_space2 (c1 c2 : ascii) : bool :=
  (code c1 =? 194) && (code c2 =? 160).

(** U+1680, U+2000 to U+200A, U+2028, U+2029, U+202F, U+205F, U+3000 and
    U+FEFF in UTF-8. *)
Definition is_white_space3 (c1 c2 c3 : ascii) : bool :=
  let '(n1, n2, n3) := (code c1, code c2, code c3) in
  ((n1 =? 225) && (n2 =? 154) && (n3 =? 128))
  || ((n1 =? 226) && (n2 =? 128)
      && (((128 <=? n3) && (n3 <=? 138)) || (n3 =? 168) || (n3 =? 169)
          || (n3 =? 175)))
  || ((n1 =? 226) && (n2 =? 129) && (n3 =? 159))
  || ((n1 =? 227) && (n2 =? 128) && (n3 =? 128))
  || ((n1 =? 239) && (n2 =? 187) && (n3 =? 191)).

(** The string without the white space it begins with. *)
Fixpoint trim_start (s : string) : string :=
  match s with
  | EmptyString => EmptyString
  | String c1 rest1 =>
      if is_white_space c1 then trim_start rest1
      else
        match rest1 with
        | EmptyString => s
        | String c2 rest2 =>
            if is_white_space2 c1 c2 then trim_start rest2
            else
              match rest2 with
              | EmptyString => s
              | String c3 rest3 =>
                  if is_white_space3 c1 c2 c3 then trim_start rest3 else s
              end
        end
  end.

Definition digit_of (c : ascii) : option Z :=
  let n := code c in
  if (48 <=? n) && (n <=? 57) then Some (n - 48) else None.

(** The value of the longest prefix of decimal digits, [None] when that
    prefix is empty. *)
Fixpoint digits_prefix (s : string) (acc : option Z) : option Z :=
  match s with
  | String c rest =>
      match digit_of c with
      | Some d => digits_prefix rest (Some (10 * default 0 acc + d))
      | None => acc
      end
  | EmptyString => acc
  end.

(** [parseInt(s, 10)]: the digits are read as an integer, which is then
    rounded to a double. *)
Definition parseInt (s : string) : number :=
  let s1 := trim_start s in
  let '(sign, s2) :=
    match s1 with
    | String "-" rest => (-1, rest)
    | String "+" rest => (1, rest)
    | _ => (1, s1)
    end in
  match digits_prefix s2 None with
  | Some n => to_double (sign * n)
  | None => NaN
  end.

(** [s.split(sep)] for a one-character separator: never the empty list. *)
Fixpoint split (sep : ascii) (s : string) : list string :=
  match s with
  | EmptyString => [EmptyString]
  | String c rest =>
      if bool_decide (c = sep) then EmptyString :: split sep rest
      else match split sep rest with
           | piece :: pieces => String c piece :: pieces
           | [] => [String c EmptyString]
           end
  end.

(** ** Proxy specifications and descriptors *)

(** The fields of [SocksProxyAgentOptions] that [parseSocksProxy] reads.
    [port] and [type] are inspected with [typeof] and [===], so they are
    arbitrary values; [VUndefined] is an absent field. *)
Module Opts.
Record t : Type := make {
  hostname : option string;
  host : option string;
  port : value;
  protocol : option string;
  type : value;
  userId : option string;
  username : option string;
  password : option string;
  auth : option string
}.

Definition empty : t :=
  make None None VUndefined None VUndefined None None None None.
End Opts.

(** [SocksProxy]. [userId] and [password] are the properties defined with
    [enumerable: false]; they are set only when truthy. *)
Module Proxy.
Record t : Type := make {
  host : string;
  port : number;
  type : Z;
  userId : option string;
  password : option string
}.
End Proxy.

#[global] Instance proxy_eq_dec : EqDecision Proxy.t.
Proof. solve_decision. Defined.

(** The [switch (opts.protocol)] with its fall-through cases, from the
    initial [lookup = false], [type = 5]. *)
Definition protocol_switch (protocol : string) (lookup : bool) (type : Z)
  : result (bool * Z) :=
  if bool_decide (protocol = "socks4:") then
    let lookup := true in OK (lookup, 4)
  else if bool_decide (protocol = "socks4a:") then OK (lookup, 4)
  else if bool_decide (protocol = "socks5:") then
    let lookup := true in OK (lookup, 5)
  else if bool_decide (protocol = "socks:") then OK (lookup, 5)
  else if bool_decide (protocol = "socks5h:") then OK (lookup, 5)
  else Throw (TypeError (bad_protocol_message protocol)).

Definition keep_truthy (o : option string) : option string :=
  if opt_truthy o then o else None.

(** The blocks of [parseSocksProxy], in the order of the source. *)

(** [const host = opts.hostname || opts.host], [None] when [!host]. *)
Definition parse_host (opts : Opts.t) : option string :=
  keep_truthy (opt_or (Opts.hostname opts) (Opts.host opts)).

(** [port] from its initial 0, then [if (!port) port = 1080]. *)
Definition parse_port (opts : Opts.t) : number :=
  let port := Int 0 in
  let port :=
    match Opts.port opts with
    | VNumber n => n
    | VString s => parseInt s
    | _ => port
    end in
  if number_truthy port then port else Int 1080.

(** [if (opts.protocol) switch ...], from [lookup = false], [type = 5]. *)
Definition parse_protocol (opts : Opts.t) : result (bool * Z) :=
  let lookup := false in
  let type := 5 in
  match Opts.protocol opts with
  | Some protocol =>
      if string_truthy protocol then protocol_switch protocol lookup type
      else OK (lookup, type)
  | None => OK (lookup, type)
  end.

(** [if (typeof opts.type !== 'undefined') ...] *)
Definition parse_type (opts : Opts.t) (type : Z) : result Z :=
  match Opts.type opts with
  | VUndefined => OK type
  | VNumber (Int 4) => OK 4
  | VNumber (Int 5) => OK 5
  | other => Throw (TypeError (bad_type_message other))
  end.

(** [userId] and [password] as they stand before the two
    [Object.defineProperty] calls. *)
Definition parse_credentials (opts : Opts.t) : option string * option string :=
  let userId := opt_or (Opts.userId opts) (Opts.username opts) in
  let password := Opts.password opts in
  match Opts.auth opts with
  | Some a =>
      if string_truthy a then
        let auth := split ":" a in
        (auth !! 0%nat, auth !! 1%nat)
      else (userId, password)
  | None => (userId, password)
  end.

Definition parseSocksProxy (opts : Opts.t) : result (bool * Proxy.t) :=
  match parse_host opts with
  | None => Throw (TypeError no_host_message)
  | Some host =>
      let port := parse_port opts in
      bind_result (parse_protocol opts) (fun '(lookup, type) =>
      bind_result (parse_type opts type) (fun type =>
      let '(userId, password) := parse_credentials opts in
      OK (lookup,
          Proxy.make host port type
            (keep_truthy userId) (keep_truthy password))))
  end.

(** ** The constructor *)

(** One element of the constructor argument: a URL string, a structured
    object, or a missing value. *)
Inductive rawOpt : Type :=
| RawString (s : string)
| RawOptions (o : Opts.t)
| RawNull
| RawUndefined.

(** The constructor argument; [new SocksProxyAgent()] is [Single RawUndefined]. *)
Inductive rawOpts : Type :=
| Single (r : rawOpt)
| Array (l : list rawOpt).

Definition rawOpt_truthy (r : rawOpt) : bool :=
  match r with
  | RawString s => string_truthy s
  | RawOptions _ => true
  | RawNull | RawUndefined => false
  end.

Record SocksProxyAgent : Type := {
  lookups : list bool;
  proxies : list Proxy.t
}.

Section Constructor.

(** Node's [url.parse], which is not part of the repository. *)
Variable url_parse : string -> Opts.t.

(** The [for (const rawOpt of rawOptsArray)] loop, [opts] being the array
    filled so far. A null element is pushed too, but the throw that
    follows discards the array. *)
Fixpoint convert (rawOptsArray : list rawOpt) (opts : list Opts.t)
  : result (list Opts.t) :=
  match rawOptsArray with
  | [] => OK opts
  | rawOpt :: rest =>
      let opts :=
        match rawOpt with
        | RawString s => opts ++ [url_parse s]
        | RawOptions o => opts ++ [o]
        | RawNull | RawUndefined => opts
        end in
      if negb (rawOpt_truthy rawOpt)
      then Throw (TypeError no_proxy_message)
      else convert rest opts
  end.

Definition rawOptsArray_of (rawOpts : rawOpts) : list rawOpt :=
  match rawOpts with
  | Single r => [r]
  | Array l => l
  end.

Definition new_SocksProxyAgent (rawOpts : rawOpts) : result SocksProxyAgent :=
  bind_result (convert (rawOptsArray_of rawOpts) []) (fun opts =>
  bind_result (map_result parseSocksProxy opts) (fun parsedProxies =>
  OK {| lookups := map fst parsedProxies;
        proxies := map snd parsedProxies |})).

End Constructor.

(** ** Objects and the store *)

Record property : Type := {
  prop_value : value;
  enumerable : bool
}.

Abbreviation object := (gmap string property).
Abbreviation Store := (gmap loc object).

(** [o[key]] *)
Definition get (o : object) (key : string) : value :=
  match o !! key with
  | Some p => prop_value p
  | None => VUndefined
  end.

(** [Object.defineProperty(o, key, {value, enumerable})] for a key [o]
    does not have yet, and the property [key: v] of an object literal. *)
Definition define_property (o : object) (key : string) (v : value)
    (enum : bool) : object :=
  <[key := {| prop_value := v; enumerable := enum |}]> o.

(** [o[key] = v]. A property [o] has keeps its attribute and a new one is
    enumerable, but for the key [__proto__]: on an object that has no
    property of that name the assignment reaches the setter of
    [Object.prototype], which ignores a value that is neither an object
    nor null, and makes any other the prototype of [o]. That takes [o] out
    of the plain objects: [None]. *)
Definition set (o : object) (key : string) (v : value) : option object :=
  match o !! key with
  | Some p => Some (<[key := {| prop_value := v; enumerable := enumerable p |}]> o)
  | None =>
      if bool_decide (key = "__proto__") then
        match v with
        | VNull | VRef _ | VSocket _ => None
        | VUndefined | VBool _ | VNumber _ | VString _ => Some o
        end
      else Some (<[key := {| prop_value := v; enumerable := true |}]> o)
  end.

(** The keys a [for (key in o)] loop visits. *)
Definition for_in (o : object) : list string :=
  (map_to_list (filter (fun kp => enumerable kp.2 = true) o)).*1.

(** [{...o}] *)
Definition spread (o : object) : object :=
  (fun p => {| prop_value := prop_value p; enumerable := true |})
    <$> filter (fun kp => enumerable kp.2 = true) o.

Definition store_get (σ : Store) (l : loc) (key : string) : value :=
  get (default ∅ (σ !! l)) key.

Definition store_set (σ : Store) (l : loc) (key : string) (v : value)
  : option Store :=
  match σ !! l with
  | Some o =>
      match set o key v with
      | Some o => Some (<[l := o]> σ)
      | None => None
      end
  | None => None
  end.

(** The body of the loop of [omit], for the remaining keys of the
    enumeration: [if (!keys.includes(key)) ret[key] = obj[key]]. *)
Fixpoint omit_loop (σ : Store) (obj ret : loc) (keys : list string)
    (enumeration : list string) : option Store :=
  match enumeration with
  | [] => Some σ
  | key :: rest =>
      let σ :=
        if bool_decide (key ∈ keys) then Some σ
        else store_set σ ret key (store_get σ obj key) in
      match σ with
      | Some σ => omit_loop σ obj ret keys rest
      | None => None
      end
  end.

(** [omit(obj, ...keys)] on the store: [ret = {}] is a new location. [None]
    when [obj] is not a location of the store, and when the copy is given
    another prototype. *)
Definition omit (σ : Store) (obj : loc) (keys : list string)
  : option (Store * loc) :=
  match σ !! obj with
  | None => None
  | Some o =>
      let ret := fresh (dom σ) in
      let σ := <[ret := ∅]> σ in
      match omit_loop σ obj ret keys (for_in o) with
      | Some σ => Some (σ, ret)
      | None => None
      end
  end.

(** The properties of what [omit] returns, as a function of the contents
    of [obj]: what is enumerable and not listed, [__proto__] aside, which
    never becomes a property of the copy. *)
Definition omit_result (o : object) (keys : list string) : object :=
  spread (filter (fun kp => (kp.1 ∉ keys) /\ kp.1 <> "__proto__") o).

(** ** Calls to the resolver, the SOCKS client and the TLS library *)

Record SocksClientOptions : Type := {
  sco_proxy : Proxy.t;
  sco_destination : value * value;
  sco_command : string
}.

Record SocksClientChainOptions : Type := {
  scc_proxies : list Proxy.t;
  scc_destination : value * value;
  scc_command : string
}.

(** The calls [callback] makes, indexed by what comes back: [dns.lookup]
    hands [(err, res)] to its callback, the others return a socket. *)
Inductive Event : Type -> Type :=
| dns_lookup (host : value) : Event (option error * string)
| createConnection (o : SocksClientOptions) : Event Socket
| createConnectionChain (o : SocksClientChainOptions) : Event Socket
| tls_connect (o : object) : Event Socket.

(** A program either is done, with a value or an exception, or makes a call
    and goes on with its answer. A call that fails (a rejected promise under
    [await], a synchronous throw) ends the program with that exception:
    the source has no [try]. *)
Inductive Prog (A : Type) : Type :=
| Done (r : result A)
| Call {X : Type} (ev : Event X) (k : X -> Prog A).
Arguments Done {A} r.
Arguments Call {A X} ev k.

Fixpoint bind {A B} (p : Prog A) (f : A -> Prog B) : Prog B :=
  match p with
  | Done (OK a) => f a
  | Done (Throw e) => Done (Throw e)
  | Call ev k => Call ev (fun x => bind (k x) f)
  end.

Notation "'let*' x ':=' p 'in' q" := (bind p (fun x => q))
  (at level 10, x name, p at level 100, q at level 200, only parsing).

Definition ret {A} (a : A) : Prog A := Done (OK a).
Definition throw {A} (e : error) : Prog A := Done (Throw e).
Definition await {X} (ev : Event X) : Prog X := Call ev ret.

(** An entry of the trace: a call and its arguments. *)
Inductive call : Type :=
| CDns (host : value)
| CConnect (o : SocksClientOptions)
| CChain (o : SocksClientChainOptions)
| CTls (o : object).

Definition call_of {X} (ev : Event X) : call :=
  match ev with
  | dns_lookup host => CDns host
  | createConnection o => CConnect o
  | createConnectionChain o => CChain o
  | tls_connect o => CTls o
  end.

(** The world outside: how each call answers. *)
Record Env : Type := {
  env_dns : value -> option error * string;
  env_connect : SocksClientOptions -> result Socket;
  env_chain : SocksClientChainOptions -> result Socket;
  env_tls : object -> result Socket
}.

Definition handle (env : Env) {X} (ev : Event X) : result X :=
  match ev with
  | dns_lookup host => OK (env_dns env host)
  | createConnection o => env_connect env o
  | createConnectionChain o => env_chain env o
  | tls_connect o => env_tls env o
  end.

(** Runs a program: the calls made, in order, and the outcome. *)
Fixpoint run {A} (env : Env) (p : Prog A) : list call * result A :=
  match p with
  | Done r => ([], r)
  | Call ev k =>
      match handle env ev with
      | OK x => let '(trace, r) := run env (k x) in (call_of ev :: trace, r)
      | Throw e => ([call_of ev], Throw e)
      end
  end.

(** ** [dnsLookup] and [callback] *)

Definition dnsLookup (host : value) : Prog string :=
  Call (dns_lookup host) (fun '(err, res) =>
    match err with
    | Some err => throw err
    | None => ret res
    end).

(** An array is an object, and every object is truthy. *)
Definition array_truthy {A} (a : list A) : bool := true.

(** [a || b] on values. *)
Definition value_or (a b : value) : value := if truthy a then a else b.

(** The three stages of [callback], in the order of the source. *)

(** [if (lookups.length>0 && lookups) host = await dnsLookup(host)]: the
    host the tunnel is asked for. *)
Definition resolve (this : SocksProxyAgent) (host : value) : Prog value :=
  let lookups := lookups this in
  if (0 <? Z.of_nat (List.length lookups)) && array_truthy lookups
  then let* res := dnsLookup host in ret (VString res)
  else ret host.

(** [if (proxies.length === 1) ... else ...]: [proxies] has length 1 when
    it is [[proxies[0]]]. *)
Definition tunnel (this : SocksProxyAgent) (host port : value) : Prog Socket :=
  let proxies := proxies this in
  match proxies with
  | [proxy] =>
      await (createConnection
        {| sco_proxy := proxy;
           sco_destination := (host, port);
           sco_command := "connect" |})
  | _ =>
      await (createConnectionChain
        {| scc_proxies := proxies;
           scc_destination := (host, port);
           scc_command := "connect" |})
  end.

(** The argument of [tls.connect]:
    [{...omit(opts, 'host', 'hostname', 'path', 'port'), socket, servername}].
    The spread reads the properties of the copy made by [omit] and not its
    prototype; the copy has these properties also when it was given
    another prototype, as long as that one is a plain object or null. *)
Definition tls_options (opts : object) (socket : Socket) (servername : value)
  : object :=
  let options := spread (omit_result opts ["host"; "hostname"; "path"; "port"]) in
  let options := define_property options "socket" (VSocket socket) true in
  define_property options "servername" servername true.

(** [if (opts.secureEndpoint) return tls.connect({...}); return socket] *)
Definition upgrade (opts : object) (host : value) (socket : Socket)
  : Prog Socket :=
  if truthy (get opts "secureEndpoint") then
    let servername := value_or (get opts "servername") host in
    await (tls_connect (tls_options opts socket servername))
  else ret socket.

Definition callback (this : SocksProxyAgent) (opts : object) : Prog Socket :=
  let host := get opts "host" in
  let port := get opts "port" in
  if negb (truthy host) then throw (Error no_host_defined_message) else
  let* host := resolve this host in
  let* socket := tunnel this host port in
  upgrade opts host socket.

(** ** The agent and what it shares *)

(** A method of the agent, with what it does to [this] made explicit. *)
Inductive Method (A : Type) : Type :=
| Finish (r : result A)
| ReadThis (k : SocksProxyAgent -> Method A)
| WriteThis (this : SocksProxyAgent) (k : Method A)
| Invoke {X : Type} (ev : Event X) (k : X -> Method A).
Arguments Finish {A} r.
Arguments ReadThis {A} k.
Arguments WriteThis {A} this k.
Arguments Invoke {A X} ev k.

(** A program that does not touch [this]. *)
Fixpoint lift {A} (p : Prog A) : Method A :=
  match p with
  | Done r => Finish r
  | Call ev k => Invoke ev (fun x => lift (k x))
  end.

(** The method [callback(req, opts)]: [const { lookups, proxies } = this],
    the one access to [this], then the body. *)
Definition callback_method (opts : object) : Method Socket :=
  ReadThis (fun this => lift (callback this opts)).

(** The SOCKS client is handed the objects of the agent themselves, not
    copies: [proxies[0]] by [createConnection], the array [proxies] by
    [createConnectionChain]. What it leaves in them is part of how it
    answers. *)
Record Client : Type := {
  client_env : Env;
  after_connect : SocksClientOptions -> Proxy.t;
  after_chain : SocksClientChainOptions -> list Proxy.t
}.

(** The agent after a call made by [callback]: [lookups] is handed to
    nobody, and neither the resolver nor the TLS library is handed a part
    of the agent. *)
Definition shared_after (c : Client) {X} (ev : Event X)
    (this : SocksProxyAgent) : SocksProxyAgent :=
  match ev with
  | createConnection o =>
      {| lookups := lookups this;
         proxies := <[0%nat := after_connect c o]> (proxies this) |}
  | createConnectionChain o =>
      {| lookups := lookups this; proxies := after_chain c o |}
  | dns_lookup _ | tls_connect _ => this
  end.

(** Runs a method on an agent: the agent afterwards, the calls made and
    the outcome. *)
Fixpoint run_method {A} (c : Client) (this : SocksProxyAgent) (m : Method A)
  : SocksProxyAgent * (list call * result A) :=
  match m with
  | Finish r => (this, ([], r))
  | ReadThis k => run_method c this (k this)
  | WriteThis this k => run_method c this k
  | Invoke ev k =>
      let this := shared_after c ev this in
      match handle (client_env c) ev with
      | OK x =>
          let '(this, (trace, r)) := run_method c this (k x) in
          (this, (call_of ev :: trace, r))
      | Throw e => (this, ([call_of ev], Throw e))
      end
  end.

Definition connect (c : Client) (this : SocksProxyAgent) (opts : object)
  : SocksProxyAgent * (list call * result Socket) :=
  run_method c this (callback_method opts).


(** * Notions used to state the properties *)

(** ** Decimal strings *)

Fixpoint all_digits (s : string) : bool :=
  match s with
  | EmptyString => true
  | String c rest => bool_decide (is_Some (digit_of c)) && all_digits rest
  end.

(** A numeric string: one decimal digit or more, and nothing else. *)
Definition numeric_string (s : string) : bool :=
  string_truthy s && all_digits s.

(** The number a string of decimal digits denotes in base 10, digit by
    digit with its weight. *)
Fixpoint decimal_value (s : string) : Z :=
  match s with
  | EmptyString => 0
  | String c rest =>
      default 0 (digit_of c) * 10 ^ Z.of_nat (String.length rest)
      + decimal_value rest
  end.

(** The string is empty or begins with something else than a decimal digit. *)
Definition no_leading_digit (s : string) : bool :=
  match s with
  | EmptyString => true
  | String c _ => negb (bool_decide (is_Some (digit_of c)))
  end.

(** The white space of ASCII: tab, line feed, vertical tab, form feed,
    carriage return and space. *)
Definition ascii_spaces : list ascii :=
  ["009"; "010"; "011"; "012"; "013"; " "]%char.

(** A string with no integer to read: after white space of ASCII and at
    most one sign comes the end of the string or a character that is not a
    decimal digit, which is a character of ASCII when no sign precedes
    it. *)
Fixpoint unparsable (s : string) : bool :=
  match s with
  | EmptyString => true
  | String c rest =>
      if bool_decide (c ∈ ascii_spaces) then unparsable rest
      else if bool_decide (c = "-"%char \/ c = "+"%char)
      then no_leading_digit rest
      else (code c <? 128) && no_leading_digit s
  end.

(** The string of the given bytes. *)
Definition utf8 (bytes : list nat) : string :=
  string_of_list_ascii (map ascii_of_nat bytes).

(** The white space and the line terminators of JavaScript, in UTF-8: tab,
    line feed, vertical tab, form feed, carriage return, space, U+00A0
    (also as a byte of its own), U+1680, U+2000 to U+200A, U+2028, U+2029,
    U+202F, U+205F, U+3000 and U+FEFF. *)
Definition white_spaces : list string :=
  map utf8
    [[9]; [10]; [11]; [12]; [13]; [32]; [160]; [194; 160]; [225; 154; 128];
     [226; 128; 128]; [226; 128; 129]; [226; 128; 130]; [226; 128; 131];
     [226; 128; 132]; [226; 128; 133]; [226; 128; 134]; [226; 128; 135];
     [226; 128; 136]; [226; 128; 137]; [226; 128; 138]; [226; 128; 168];
     [226; 128; 169]; [226; 128; 175]; [226; 129; 159]; [227; 128; 128];
     [239; 187; 191]]%nat.

(** The integer a string reads as in base 10: white space, then at most
    one sign, then decimal digits, one at least, then anything that does
    not go on with a digit. *)
Inductive reads : string -> Z -> Prop :=
| reads_space (w s : string) (v : Z) :
    w ∈ white_spaces -> reads s v -> reads (w +:+ s) v
| reads_minus (ds rest : string) :
    numeric_string ds = true -> no_leading_digit rest = true ->
    reads (String "-" (ds +:+ rest)) (- decimal_value ds)
| reads_plus (ds rest : string) :
    numeric_string ds = true -> no_leading_digit rest = true ->
    reads (String "+" (ds +:+ rest)) (decimal_value ds)
| reads_digits (ds rest : string) :
    numeric_string ds = true -> no_leading_digit rest = true ->
    reads (ds +:+ rest) (decimal_value ds).

(** An integer that is a double: a significand of 53 bits times a power of
    two, below 2^1024 in magnitude. *)
Definition is_double (d : Z) : Prop :=
  Z.abs d < 2 ^ 1024
  /\ exists m e, 0 <= e /\ Z.abs m < 2 ^ 53 /\ d = m * 2 ^ e.

(** [n] is a Number value of the integer [v]: a double nearest to [v] when
    [v] is nearer to the largest double than to 2^1024, the infinity of the
    sign of [v] otherwise. *)
Definition number_value (v : Z) (n : number) : Prop :=
  match n with
  | Int d =>
      Z.abs v < 2 ^ 1024 - 2 ^ 970
      /\ is_double d
      /\ forall d', is_double d' -> Z.abs (d - v) <= Z.abs (d' - v)
  | Infinity negative =>
      2 ^ 1024 - 2 ^ 970 <= Z.abs v /\ negative = (v <? 0)
  | NaN | Fraction _ _ _ _ => False
  end.

(** A valid explicit type: the number 4 or the number 5. *)
Definition valid_type (v : value) : bool :=
  bool_decide (v = VNumber (Int 4)) || bool_decide (v = VNumber (Int 5)).

(** ** Proxy specifications *)

(** A host is present: [hostname] or [host] is a non-empty string. *)
Definition has_host (opts : Opts.t) : bool :=
  opt_truthy (Opts.hostname opts) || opt_truthy (Opts.host opts).

(** The schemes of SOCKS. *)
Definition socks_schemes : list string :=
  ["socks4:"; "socks4a:"; "socks5:"; "socks:"; "socks5h:"].

(** The protocol field is absent, empty, or one of the schemes. *)
Definition accepted_protocol (opts : Opts.t) : bool :=
  match Opts.protocol opts with
  | Some s => negb (string_truthy s) || bool_decide (s ∈ socks_schemes)
  | None => true
  end.

(** The schemes that ask the client to resolve the destination. *)
Definition resolving_scheme (protocol : option string) : bool :=
  bool_decide (protocol = Some "socks4:" \/ protocol = Some "socks5:").

(** The host of a specification: its [hostname] when that is a non-empty
    string, its [host] otherwise. *)
Definition host_of_spec (opts : Opts.t) (host : string) : Prop :=
  (forall h, Opts.hostname opts = Some h -> h <> EmptyString -> host = h)
  /\ (opt_truthy (Opts.hostname opts) = false -> Opts.host opts = Some host).

(** The port of a specification: the number given, other than 0 and NaN;
    the value of the numeric string given, other than 0 and up to 2^53;
    1080 when none is given. *)
Definition port_of_spec (opts : Opts.t) (port : number) : Prop :=
  (forall n, Opts.port opts = VNumber n -> n <> Int 0 -> n <> NaN -> port = n)
  /\ (forall s, Opts.port opts = VString s -> numeric_string s = true ->
        0 < decimal_value s <= 2 ^ 53 -> port = Int (decimal_value s))
  /\ (Opts.port opts = VUndefined -> port = Int 1080).

(** A port in the sense of the data model: a positive integer. *)
Definition positive_port (n : number) : Prop :=
  exists z, n = Int z /\ 0 < z.

(** A string without a colon. *)
Fixpoint no_colon (s : string) : bool :=
  match s with
  | EmptyString => true
  | String c rest => negb (bool_decide (c = ":"%char)) && no_colon rest
  end.

(** ** Concrete specifications *)

Definition spec_of (hostname : string) (port : value) (protocol : option string)
    (type : value) : Opts.t :=
  Opts.make (Some hostname) None port protocol type None None None None.

(** [{hostname: '127.0.0.1', protocol: 'socks4:', type: 5}] *)
Definition socks4_typed_5 : Opts.t :=
  spec_of "127.0.0.1" VUndefined (Some "socks4:") (VNumber (Int 5)).

(** [{hostname: '127.0.0.1', protocol: 'socks4:'}] *)
Definition socks4_plain : Opts.t :=
  spec_of "127.0.0.1" VUndefined (Some "socks4:") VUndefined.

(** [{hostname: '127.0.0.1', protocol: 'socks5h:'}] *)
Definition socks5h_plain : Opts.t :=
  spec_of "127.0.0.1" VUndefined (Some "socks5h:") VUndefined.

(** [{hostname: '127.0.0.1', port: '9050', protocol: 'socks:'}], what
    [url.parse('socks://127.0.0.1:9050')] carries. *)
Definition socks_9050 : Opts.t :=
  Opts.make (Some "127.0.0.1") (Some "127.0.0.1:9050") (VString "9050")
    (Some "socks:") VUndefined None None None None.

(** [{hostname: '127.0.0.1', port: -1}] *)
Definition negative_port : Opts.t :=
  spec_of "127.0.0.1" (VNumber (Int (-1))) None VUndefined.

(** [{hostname: '127.0.0.1', port: 1.5}] *)
Definition fractional_port : Opts.t :=
  spec_of "127.0.0.1" (VNumber (Fraction false 1 D5 1)) None VUndefined.

(** [{hostname: '127.0.0.1', auth: 'user:pa:ss'}] *)
Definition auth_two_colons : Opts.t :=
  Opts.make (Some "127.0.0.1") None VUndefined None VUndefined
    None None None (Some "user:pa:ss").

(** ** Objects *)

(** All the properties of an object are enumerable. *)
Definition all_enumerable (o : object) : Prop :=
  forall k p, o !! k = Some p -> enumerable p = true.

Definition enumerable_property (v : value) : property :=
  {| prop_value := v; enumerable := true |}.

Definition hidden_property (v : value) : property :=
  {| prop_value := v; enumerable := false |}.

(** An object or null: what the setter of [__proto__] takes as a
    prototype. *)
Definition object_or_null (v : value) : bool :=
  match v with
  | VNull | VRef _ | VSocket _ => true
  | VUndefined | VBool _ | VNumber _ | VString _ => false
  end.

(** [omit(obj, ...keys)] gives its copy another prototype: [obj] has an
    enumerable [__proto__] outside the list that holds an object or null. *)
Definition replaces_prototype (o : object) (keys : list string) : bool :=
  bool_decide ("__proto__" ∈ for_in o)
  && negb (bool_decide ("__proto__" ∈ keys))
  && object_or_null (get o "__proto__").

(** A request: [{host: 'example.com', port: 443, secureEndpoint: true,
    path: '/foo', rejectUnauthorized: false}] with one property that does
    not enumerate. *)
Definition https_request : object :=
  list_to_map
    [("host", enumerable_property (VString "example.com"));
     ("port", enumerable_property (VNumber (Int 443)));
     ("secureEndpoint", enumerable_property (VBool true));
     ("path", enumerable_property (VString "/foo"));
     ("rejectUnauthorized", enumerable_property (VBool false));
     ("agent", hidden_property (VRef 5%nat))].

(** The same request with [servername: 'example.org']. *)
Definition named_request : object :=
  <["servername" := enumerable_property (VString "example.org")]> https_request.

(** The same request with an option named [__proto__], as
    [JSON.parse('{"__proto__": 5}')] has one. *)
Definition proto_request : object :=
  <["__proto__" := enumerable_property (VNumber (Int 5))]> https_request.

(** [{"__proto__": 5, a: 1}], as [JSON.parse] builds it: [__proto__] is
    a property of the object like any other. *)
Definition proto_object : object :=
  list_to_map
    [("__proto__", enumerable_property (VNumber (Int 5)));
     ("a", enumerable_property (VNumber (Int 1)))].

(** A store that holds this object at location 0. *)
Definition proto_store : Store := {[ 0%nat := proto_object ]}.

(** A store that holds this request at location 0. *)
Definition request_store : Store := {[ 0%nat := https_request ]}.

(** ** Constructor arguments, requests and traces *)

(** The options an element of the constructor argument stands for. *)
Definition options_of (url_parse : string -> Opts.t) (r : rawOpt) : Opts.t :=
  match r with
  | RawString s => url_parse s
  | RawOptions o => o
  | RawNull | RawUndefined => Opts.empty
  end.

(** A valid element of the constructor argument: present, with a host, a
    protocol that is absent or a SOCKS scheme, and a type that is absent,
    4 or 5. *)
Definition valid_spec (url_parse : string -> Opts.t) (r : rawOpt) : Prop :=
  rawOpt_truthy r = true
  /\ has_host (options_of url_parse r) = true
  /\ accepted_protocol (options_of url_parse r) = true
  /\ (Opts.type (options_of url_parse r) = VUndefined
      \/ valid_type (Opts.type (options_of url_parse r)) = true).

(** A call that opens the tunnel. *)
Definition is_tunnel_call (c : call) : bool :=
  match c with
  | CConnect _ | CChain _ => true
  | CDns _ | CTls _ => false
  end.

(** The destination a tunnel call asks for. *)
Definition destination_of (c : call) : option (value * value) :=
  match c with
  | CConnect o => Some (sco_destination o)
  | CChain o => Some (scc_destination o)
  | CDns _ | CTls _ => None
  end.

(** What the environment answers to a tunnel call. *)
Definition tunnel_answer (env : Env) (c : call) : option (result Socket) :=
  match c with
  | CConnect o => Some (env_connect env o)
  | CChain o => Some (env_chain env o)
  | CDns _ | CTls _ => None
  end.

(** A tunnel call made for this agent carries its chain: its only
    descriptor for a single-hop connect, the whole list for a chained one. *)
Definition carries_chain (this : SocksProxyAgent) (c : call) : Prop :=
  match c with
  | CConnect o =>
      proxies this = [sco_proxy o] /\ sco_command o = "connect"
  | CChain o =>
      scc_proxies o = proxies this /\ List.length (proxies this) <> 1%nat
      /\ scc_command o = "connect"
  | CDns _ | CTls _ => True
  end.


(** [url.parse] on the one URL of the examples below. *)
Definition url_parse_sample (s : string) : Opts.t :=
  if bool_decide (s = "socks://127.0.0.1:9050") then socks_9050 else Opts.empty.

(** [{host: 'example.com', port: 80}] *)
Definition http_request : object :=
  list_to_map
    [("host", enumerable_property (VString "example.com"));
     ("port", enumerable_property (VNumber (Int 80)))].

(** An environment in which every call succeeds. *)
Definition calm_env : Env :=
  {| env_dns := fun _ => (None, "93.184.216.34");
     env_connect := fun _ => OK 7%nat;
     env_chain := fun _ => OK 9%nat;
     env_tls := fun _ => OK 11%nat |}.


(** A SOCKS client that reverses the array it is handed. *)
Definition reversing_client : Client :=
  {| client_env := calm_env;
     after_connect := sco_proxy;
     after_chain := fun o => reverse (scc_proxies o) |}.

(** The agent of [new SocksProxyAgent({hostname: '127.0.0.1', protocol:
    'socks5h:'})]: one hop, whose resolution flag is false. *)
Definition socks5h_agent : SocksProxyAgent :=
  {| lookups := [false];
     proxies := [Proxy.make "127.0.0.1" (Int 1080) 5 None None] |}.

(** A mixed array: a string and a structured object. *)
Definition mixed_specs : list rawOpt :=
  [RawString "socks://127.0.0.1:9050"; RawOptions socks4_plain].

(** The agent of [new SocksProxyAgent(mixed_specs)]. *)
Definition mixed_agent : SocksProxyAgent :=
  {| lookups := [false; true];
     proxies := [Proxy.make "127.0.0.1" (Int 9050) 5 None None;
                 Proxy.make "127.0.0.1" (Int 1080) 4 None None] |}.

(** * Further notions: the descriptor as an object, more inputs *)

(** The same specification with other separate credentials. *)
Definition with_credentials (opts : Opts.t)
    (userId username password : option string) : Opts.t :=
  Opts.make (Opts.hostname opts) (Opts.host opts) (Opts.port opts)
    (Opts.protocol opts) (Opts.type opts) userId username password
    (Opts.auth opts).

(** The object [parseSocksProxy] builds for a descriptor: the literal
    [{host, port, type}], then [userId] and [password] defined with
    [enumerable: false] when they are truthy. *)
Definition proxy_object (p : Proxy.t) : object :=
  let proxy := define_property ∅ "host" (VString (Proxy.host p)) true in
  let proxy := define_property proxy "port" (VNumber (Proxy.port p)) true in
  let proxy := define_property proxy "type" (VNumber (Int (Proxy.type p))) true in
  let proxy :=
    match Proxy.userId p with
    | Some userId => define_property proxy "userId" (VString userId) false
    | None => proxy
    end in
  match Proxy.password p with
  | Some password => define_property proxy "password" (VString password) false
  | None => proxy
  end.

Definition is_dns_call (c : call) : bool :=
  match c with
  | CDns _ => true
  | CConnect _ | CChain _ | CTls _ => false
  end.

Definition is_tls_call (c : call) : bool :=
  match c with
  | CTls _ => true
  | CDns _ | CConnect _ | CChain _ => false
  end.

(** The agent of [new SocksProxyAgent([])]. *)
Definition empty_agent : SocksProxyAgent := {| lookups := []; proxies := [] |}.

(** The options of the chained connect over no proxy at all, for the host
    and the port of the request as they are. *)
Definition empty_chain_call (opts : object) : SocksClientChainOptions :=
  {| scc_proxies := [];
     scc_destination := (get opts "host", get opts "port");
     scc_command := "connect" |}.

(** [{hostname: '127.0.0.1', protocol: 'http:'}] *)
Definition http_scheme : Opts.t :=
  spec_of "127.0.0.1" VUndefined (Some "http:") VUndefined.

(** [{hostname: '127.0.0.1', auth: 'user', userId: 'other', password:
    'secret'}] *)
Definition auth_no_colon : Opts.t :=
  Opts.make (Some "127.0.0.1") None VUndefined None VUndefined
    (Some "other") None (Some "secret") (Some "user").

(** [{hostname: '127.0.0.1', auth: 'user:pass', userId: 'other'}] *)
Definition auth_one_colon : Opts.t :=
  Opts.make (Some "127.0.0.1") None VUndefined None VUndefined
    (Some "other") None None (Some "user:pass").

(** [{hostname: '127.0.0.1', username: 'name', password: 'secret'}] *)
Definition separate_credentials : Opts.t :=
  Opts.make (Some "127.0.0.1") None VUndefined None VUndefined
    None (Some "name") (Some "secret") None.

(** [{hostname: '127.0.0.1', port: '8080/path'}] *)
Definition port_with_path : Opts.t :=
  spec_of "127.0.0.1" (VString "8080/path") None VUndefined.

(** An environment whose resolver fails. *)
Definition no_dns_env : Env :=
  {| env_dns := fun _ => (Some (Rejection "ENOTFOUND"), EmptyString);
     env_connect := fun _ => OK 7%nat;
     env_chain := fun _ => OK 9%nat;
     env_tls := fun _ => OK 11%nat |}.

(** An environment whose SOCKS client fails. *)
Definition no_socks_env : Env :=
  {| env_dns := fun _ => (None, "93.184.216.34");
     env_connect := fun _ => Throw (Rejection "ECONNREFUSED");
     env_chain := fun _ => Throw (Rejection "ECONNREFUSED");
     env_tls := fun _ => OK 11%nat |}.

(** [{port: 80}]: a request without a host. *)
Definition hostless_request : object :=
  list_to_map [("port", enumerable_property (VNumber (Int 80)))].
(** * Properties *)

(** ** Decimal strings *)

Lemma digits_prefix_all_digits (s : string) (a : Z) :
  all_digits s = true ->
  digits_prefix s (Some a)
  = Some (a * 10 ^ Z.of_nat (String.length s) + decimal_value s).
Proof.
  revert a. induction s as [|c rest IH]; intros a Hs.
  - simpl. f_equal. lia.
  - cbn [all_digits] in Hs. apply andb_prop in Hs as [Hc Hrest].
    apply bool_decide_eq_true in Hc as [d Hd].
    cbn [digits_prefix decimal_value String.length]. rewrite Hd.
    rewrite (IH _ Hrest). cbn [from_option id]. f_equal.
    rewrite Nat2Z.inj_succ, Z.pow_succ_r by lia. ring.
Qed.

(** ** Doubles *)

Lemma round_magnitude_small (a : Z) :
  0 <= a <= 2 ^ 53 -> round_magnitude a = a.
Proof.
  intros [H0 H1]. unfold round_magnitude.
  destruct (Z.eq_dec a (2 ^ 53)) as [->|Hne]; [reflexivity|].
  destruct (Z.eq_dec a 0) as [->|Hnz]; [reflexivity|].
  assert (Z.log2 a < 53) by (apply Z.log2_lt_pow2; lia).
  destruct (Z.leb_spec (Z.log2 a + 1) 53); [reflexivity | lia].
Qed.

Lemma to_double_small (v : Z) :
  - 2 ^ 53 <= v <= 2 ^ 53 -> to_double v = Int v.
Proof.
  intros H. unfold to_double.
  rewrite round_magnitude_small by lia.
  destruct (Z.leb_spec (2 ^ 1024) (Z.abs v)) as [Hbig|_].
  - assert (2 ^ 53 < 2 ^ 1024) by (apply Z.pow_lt_mono_r; lia). lia.
  - f_equal. lia.
Qed.

(** Rounding moves a magnitude by half a unit of its last kept bit at most:
    by a part in 2^53 of the magnitude. *)
Lemma round_magnitude_near (a : Z) :
  0 <= a -> Z.abs (round_magnitude a - a) * 2 ^ 53 <= a.
Proof.
  intros H0. unfold round_magnitude.
  destruct (Z.leb_spec (Z.log2 a + 1) 53) as [_|Hbits].
  { replace (a - a) with 0 by lia. cbn. lia. }
  assert (Hpos : 0 < a) by (destruct (Z.eq_dec a 0) as [->|]; [cbn in Hbits; lia | lia]).
  set (shift := Z.log2 a + 1 - 53) in *.
  assert (Hshift : 1 <= shift) by lia.
  pose proof (Z.log2_spec a Hpos) as [Hlo Hhi].
  replace (Z.log2 a) with (shift - 1 + 53) in Hlo by lia.
  rewrite Z.pow_add_r in Hlo by lia.
  assert (Hunit : 2 ^ shift = 2 * 2 ^ (shift - 1)).
  { replace shift with (Z.succ (shift - 1)) at 1 by lia.
    apply Z.pow_succ_r. lia. }
  assert (Hhalf : 0 < 2 ^ (shift - 1)) by (apply Z.pow_pos_nonneg; lia).
  pose proof (Z.div_mod a (2 ^ shift) ltac:(lia)) as Hdm.
  pose proof (Z.mod_pos_bound a (2 ^ shift) ltac:(lia)) as Hr.
  set (q := a / 2 ^ shift) in *. set (r := a mod 2 ^ shift) in *.
  set (half := 2 ^ (shift - 1)) in *.
  destruct (Z.ltb_spec half r) as [Hup|Hdown]; cbn [orb].
  - replace ((q + 1) * 2 ^ shift - a) with (2 ^ shift - r) by lia.
    rewrite Z.abs_eq by lia. nia.
  - destruct (Z.eqb_spec r half) as [Heq|Hne]; cbn [andb].
    + destruct (Z.odd q).
      * replace ((q + 1) * 2 ^ shift - a) with (2 ^ shift - r) by lia.
        rewrite Z.abs_eq by lia. nia.
      * replace (q * 2 ^ shift - a) with (- r) by lia.
        rewrite Z.abs_opp, Z.abs_eq by lia. nia.
    + replace (q * 2 ^ shift - a) with (- r) by lia.
      rewrite Z.abs_opp, Z.abs_eq by lia. nia.
Qed.

(** Beyond 53 bits: the magnitude lies between two neighbouring multiples
    of a power of two whose quotients have 53 bits, and is rounded to the
    nearer one, to the even one in a tie. *)
Lemma round_magnitude_large (a : Z) :
  2 ^ 53 <= a ->
  exists shift q r,
    1 <= shift /\ Z.log2 a = shift + 52
    /\ a = q * 2 ^ shift + r /\ 0 <= r < 2 ^ shift
    /\ 2 ^ 52 <= q < 2 ^ 53
    /\ round_magnitude a
       = if (2 ^ shift <? 2 * r) || ((2 * r =? 2 ^ shift) && Z.odd q)
         then (q + 1) * 2 ^ shift else q * 2 ^ shift.
Proof.
  intros Ha.
  assert (H53 : 0 < 2 ^ 53) by (apply Z.pow_pos_nonneg; lia).
  assert (Hlog : 53 <= Z.log2 a) by (apply Z.log2_le_pow2; lia).
  pose proof (Z.log2_spec a ltac:(lia)) as [Hlo Hhi].
  unfold round_magnitude.
  destruct (Z.leb_spec (Z.log2 a + 1) 53) as [|_]; [lia|].
  set (shift := Z.log2 a + 1 - 53) in *.
  assert (Hshift : 1 <= shift) by (unfold shift; lia).
  assert (Hunit : 2 ^ shift = 2 * 2 ^ (shift - 1)).
  { replace shift with (Z.succ (shift - 1)) at 1 by lia.
    apply Z.pow_succ_r. lia. }
  assert (Hhalf : 0 < 2 ^ (shift - 1)) by (apply Z.pow_pos_nonneg; lia).
  replace (Z.log2 a) with (52 + shift) in Hlo by (unfold shift; lia).
  replace (Z.succ (Z.log2 a)) with (53 + shift) in Hhi by (unfold shift; lia).
  rewrite Z.pow_add_r in Hlo, Hhi by lia.
  pose proof (Z.div_mod a (2 ^ shift) ltac:(lia)) as Hdm.
  pose proof (Z.mod_pos_bound a (2 ^ shift) ltac:(lia)) as Hr.
  exists shift, (a / 2 ^ shift), (a mod 2 ^ shift).
  split; [done|]. split; [unfold shift; lia|]. split; [lia|]. split; [done|].
  split.
  - split.
    + apply Z.div_le_lower_bound; lia.
    + apply Z.div_lt_upper_bound; lia.
  - assert (E1 : (2 ^ (shift - 1) <? a mod 2 ^ shift)
                 = (2 ^ shift <? 2 * (a mod 2 ^ shift))).
    { destruct (Z.ltb_spec (2 ^ (shift - 1)) (a mod 2 ^ shift)),
        (Z.ltb_spec (2 ^ shift) (2 * (a mod 2 ^ shift))); lia. }
    assert (E2 : (a mod 2 ^ shift =? 2 ^ (shift - 1))
                 = (2 * (a mod 2 ^ shift) =? 2 ^ shift)).
    { destruct (Z.eqb_spec (a mod 2 ^ shift) (2 ^ (shift - 1))),
        (Z.eqb_spec (2 * (a mod 2 ^ shift)) (2 ^ shift)); lia. }
    rewrite E1, E2. by destruct (_ || _).
Qed.

(** A double at or above 2^52 units is a multiple of the unit. *)
Lemma is_double_multiple (d shift : Z) :
  0 <= shift -> is_double d -> 2 ^ 52 * 2 ^ shift <= d ->
  exists j, d = j * 2 ^ shift.
Proof.
  intros Hshift (_ & m & e & He & Hm & ->) Hd.
  assert (Hpe : 0 < 2 ^ e) by (apply Z.pow_pos_nonneg; lia).
  assert (Hps : 0 < 2 ^ shift) by (apply Z.pow_pos_nonneg; lia).
  assert (H52 : 0 < 2 ^ 52) by (apply Z.pow_pos_nonneg; lia).
  assert (H53 : 2 ^ 53 = 2 * 2 ^ 52) by reflexivity.
  assert (Hmpos : 0 < m) by nia.
  rewrite Z.abs_eq in Hm by lia.
  destruct (Z.le_gt_cases shift e) as [Hle|Hgt].
  - exists (m * 2 ^ (e - shift)).
    rewrite <- Z.mul_assoc, <- Z.pow_add_r by lia. do 2 f_equal. lia.
  - exfalso.
    assert (2 ^ (e + 1) <= 2 ^ shift) by (apply Z.pow_le_mono_r; lia).
    rewrite Z.pow_add_r in * by lia. change (2 ^ 1) with 2 in *. nia.
Qed.

Lemma to_double_number_value_pos (a : Z) :
  0 <= a -> number_value a (to_double a).
Proof.
  intros Ha.
  assert (H53 : 0 < 2 ^ 53) by (apply Z.pow_pos_nonneg; lia).
  assert (H1024 : 2 ^ 53 < 2 ^ 1024 - 2 ^ 970) by (vm_compute; reflexivity).
  assert (H970 : 0 < 2 ^ 970) by (apply Z.pow_pos_nonneg; lia).
  unfold to_double. rewrite (Z.abs_eq a) by lia.
  destruct (Z.le_gt_cases a (2 ^ 53)) as [Hsmall|Hlarge].
  { rewrite round_magnitude_small by lia.
    destruct (Z.leb_spec (2 ^ 1024) a); [lia|]. cbn [number_value].
    replace (Z.sgn a * a) with a by nia.
    split; [rewrite Z.abs_eq; lia|]. split.
    - split; [rewrite Z.abs_eq; lia|].
      destruct (Z.eq_dec a (2 ^ 53)) as [->|Hne].
      + exists (2 ^ 52), 1. split; [lia|]. split; reflexivity.
      + exists a, 0. split; [lia|]. split; [rewrite Z.abs_eq; lia|].
        change (2 ^ 0) with 1. lia.
    - intros d' _. replace (a - a) with 0 by lia. cbn. lia. }
  destruct (round_magnitude_large a ltac:(lia))
    as (shift & q & r & Hshift & Hlog & Hdiv & Hr & Hq & Hround).
  assert (Hu : 0 < 2 ^ shift) by (apply Z.pow_pos_nonneg; lia).
  assert (Hsgn : Z.sgn a = 1) by (apply Z.sgn_pos; lia).
  assert (Hneg : (a <? 0) = false) by (apply Z.ltb_ge; lia).
  assert (H52 : 2 ^ 53 = 2 * 2 ^ 52) by reflexivity.
  (* the rounded magnitude is a neighbour, a nearest one *)
  assert (Hnear : (round_magnitude a = q * 2 ^ shift /\ 2 * r <= 2 ^ shift)
                  \/ (round_magnitude a = (q + 1) * 2 ^ shift
                      /\ 2 ^ shift <= 2 * r)).
  { rewrite Hround.
    destruct (Z.ltb_spec (2 ^ shift) (2 * r)); cbn [orb]; [right; lia|].
    destruct (Z.eqb_spec (2 * r) (2 ^ shift)); cbn [andb]; [|left; lia].
    destruct (Z.odd q); [right | left]; lia. }
  destruct (Z.leb_spec (2 ^ 1024) (round_magnitude a)) as [Hinf|Hfin];
    cbn [number_value]; rewrite ?Hsgn, ?Hneg, ?Z.abs_eq by lia.
  - split; [|done].
    (* only a magnitude half way to 2^1024 or more is rounded that far *)
    destruct (Z.le_gt_cases (2 ^ 1024 - 2 ^ 970) a) as [|Hbelow]; [done|].
    exfalso.
    assert (Hbits : shift + 52 < 1024).
    { rewrite <- Hlog. apply Z.log2_lt_pow2; lia. }
    assert (Hs : shift <= 971) by lia.
    assert (Hpow : 2 ^ shift * 2 ^ (971 - shift) = 2 ^ 971)
      by (rewrite <- Z.pow_add_r by lia; f_equal; lia).
    assert (Hk : 0 < 2 ^ (971 - shift)) by (apply Z.pow_pos_nonneg; lia).
    assert (E1024 : 2 ^ 1024 = 2 ^ 53 * 2 ^ 971) by reflexivity.
    assert (E970 : 2 ^ 971 = 2 * 2 ^ 970) by reflexivity.
    destruct Hnear as [[E _] | [E Hup]]; rewrite E in Hinf; nia.
  - rewrite Z.mul_1_l.
    assert (Hbound : a < 2 ^ 1024 - 2 ^ 970).
    { destruct (Z.le_gt_cases (2 ^ 1024 - 2 ^ 970) a) as [Habove|]; [|done].
      exfalso.
      assert (H1023 : 2 ^ 1023 <= a).
      { assert (2 ^ 1023 <= 2 ^ 1024 - 2 ^ 970) by (vm_compute; discriminate).
        lia. }
      assert (Hl : 1023 <= Z.log2 a) by (apply Z.log2_le_pow2; lia).
      assert (Hs : 971 <= shift) by lia.
      assert (Hpow : 2 ^ 971 * 2 ^ (shift - 971) = 2 ^ shift)
        by (rewrite <- Z.pow_add_r by lia; f_equal; lia).
      assert (Hk : 0 < 2 ^ (shift - 971)) by (apply Z.pow_pos_nonneg; lia).
      assert (E1024 : 2 ^ 1024 = 2 ^ 53 * 2 ^ 971) by reflexivity.
      assert (E970 : 2 ^ 971 = 2 * 2 ^ 970) by reflexivity.
      destruct (Z.eq_dec shift 971) as [Hshift971|Hbigger].
      - (* the last binade: the quotient is 2^53 - 1, odd, and the
           remainder is half a unit or more *)
        rewrite Hshift971 in *. clear Hpow Hk.
        assert (Hqtop : q = 2 ^ 53 - 1) by nia.
        assert (Hrtop : 2 ^ 970 <= r) by nia.
        rewrite Hround, Hqtop in Hfin.
        replace (Z.odd (2 ^ 53 - 1)) with true in Hfin by reflexivity.
        destruct (Z.ltb_spec (2 ^ 971) (2 * r)); cbn [orb] in Hfin; [lia|].
        destruct (Z.eqb_spec (2 * r) (2 ^ 971)); cbn [andb] in Hfin; lia.
      - assert (2 <= 2 ^ (shift - 971)).
        { change 2 with (2 ^ 1) at 1. apply Z.pow_le_mono_r; lia. }
        destruct Hnear as [[E _] | [E _]]; rewrite E in Hfin; nia. }
    split; [exact Hbound|]. split.
    + split; [rewrite Z.abs_eq; [lia|]|].
      * destruct Hnear as [[E _] | [E _]]; rewrite E; nia.
      * destruct Hnear as [[E _] | [E _]]; rewrite E.
        -- exists q, shift. split; [lia|]. split; [rewrite Z.abs_eq; lia | done].
        -- destruct (Z.eq_dec (q + 1) (2 ^ 53)) as [Etop|Hnot].
           ++ exists (2 ^ 52), (shift + 1). split; [lia|].
              split; [reflexivity|]. rewrite Etop, Z.pow_add_r by lia.
              change (2 ^ 1) with 2. lia.
           ++ exists (q + 1), shift. split; [lia|].
              split; [rewrite Z.abs_eq; lia | done].
    + intros d' Hd'.
      destruct (Z.le_gt_cases (2 ^ 52 * 2 ^ shift) d') as [Hhigh|Hlow].
      * destruct (is_double_multiple d' shift ltac:(lia) Hd' Hhigh) as [j ->].
        destruct (Z.le_gt_cases j q) as [Hj|Hj];
          destruct Hnear as [[E Hdown] | [E Hup]]; rewrite E;
          apply Z.abs_le; split; apply Z.opp_le_mono || idtac;
          rewrite ?Z.opp_involutive; lia || nia.
      * destruct Hnear as [[E Hdown] | [E Hup]]; rewrite E;
          rewrite (Z.abs_neq (d' - a)) by nia;
          apply Z.abs_le; nia.
Qed.

Lemma is_double_opp (d : Z) : is_double d -> is_double (- d).
Proof.
  intros (Hd & m & e & He & Hm & ->). split; [by rewrite Z.abs_opp|].
  exists (- m), e. split; [done|]. split; [by rewrite Z.abs_opp | lia].
Qed.

(** The rounding of the model gives a Number value of the integer. *)
Lemma to_double_number_value (v : Z) : number_value v (to_double v).
Proof.
  destruct (Z.le_gt_cases 0 v) as [Hpos|Hneg];
    [by apply to_double_number_value_pos|].
  pose proof (to_double_number_value_pos (- v) ltac:(lia)) as H.
  unfold to_double in *. rewrite Z.abs_opp in H.
  assert (Ha : Z.abs v = - v) by lia.
  destruct (Z.leb_spec (2 ^ 1024) (round_magnitude (Z.abs v))) as [Hinf|Hfin];
    cbn [number_value] in *.
  - destruct H as [H _]. split; [lia | reflexivity].
  - destruct H as (Hbound & Hd & Hnear).
    rewrite Z.sgn_opp, Z.sgn_neg in Hd, Hnear by lia.
    rewrite Z.sgn_neg by lia. cbn [Z.opp] in *.
    rewrite Z.mul_1_l in Hd, Hnear.
    replace (-1 * round_magnitude (Z.abs v))
      with (- round_magnitude (Z.abs v)) by lia.
    split; [lia|]. split; [by apply is_double_opp|].
    intros d' Hd'. specialize (Hnear (- d') (is_double_opp _ Hd')). lia.
Qed.

Lemma to_double_nonzero (v : Z) :
  v <> 0 -> to_double v <> Int 0 /\ to_double v <> NaN.
Proof.
  intros Hv. unfold to_double.
  pose proof (round_magnitude_near (Z.abs v) ltac:(lia)) as Hnear.
  assert (H53 : 1 < 2 ^ 53) by (apply Z.pow_gt_1; lia).
  destruct (Z.leb_spec (2 ^ 1024) (round_magnitude (Z.abs v))); [done|].
  split; [|discriminate]. intros [= E].
  assert (Hm : round_magnitude (Z.abs v) = 0) by nia.
  rewrite Hm in Hnear. lia.
Qed.

(** ** [parseInt] *)

Lemma digit_of_code (c : ascii) (d : Z) :
  digit_of c = Some d -> 48 <= code c <= 57.
Proof.
  unfold digit_of.
  destruct (Z.leb_spec 48 (code c)), (Z.leb_spec (code c) 57);
    cbn; intros E; try discriminate; lia.
Qed.

(** A character of ASCII that is not white space stops the trimming. *)
Lemma trim_start_ascii (c : ascii) (rest : string) :
  code c < 128 -> is_white_space c = false ->
  trim_start (String c rest) = String c rest.
Proof.
  intros Hc Hw. cbn [trim_start]. rewrite Hw.
  assert (H2 : forall c2, is_white_space2 c c2 = false).
  { intros c2. unfold is_white_space2.
    destruct (Z.eqb_spec (code c) 194); [lia | reflexivity]. }
  assert (H3 : forall c2 c3, is_white_space3 c c2 c3 = false).
  { intros c2 c3. unfold is_white_space3.
    destruct (Z.eqb_spec (code c) 225); [lia|].
    destruct (Z.eqb_spec (code c) 226); [lia|].
    destruct (Z.eqb_spec (code c) 227); [lia|].
    destruct (Z.eqb_spec (code c) 239); [lia|]. reflexivity. }
  destruct rest as [|c2 [|c3 rest3]]; rewrite ?H2, ?H3; reflexivity.
Qed.

Lemma digit_not_white_space (c : ascii) (d : Z) :
  digit_of c = Some d -> is_white_space c = false.
Proof.
  intros Hd. apply digit_of_code in Hd. unfold is_white_space.
  destruct (Z.leb_spec 9 (code c)), (Z.leb_spec (code c) 13),
    (Z.eqb_spec (code c) 32), (Z.eqb_spec (code c) 160); cbn; lia || reflexivity.
Qed.

Lemma parseInt_leading_digit (c : ascii) (rest : string) (d : Z) :
  digit_of c = Some d ->
  parseInt (String c rest)
  = match digits_prefix rest (Some d) with
    | Some n => to_double n
    | None => NaN
    end.
Proof.
  intros Hd. unfold parseInt.
  rewrite trim_start_ascii
    by (first [ apply digit_of_code in Hd; lia
              | by eapply digit_not_white_space ]).
  assert (Hsign : c <> "-"%char /\ c <> "+"%char).
  { split; intros ->; vm_compute in Hd; discriminate. }
  destruct Hsign as [Hm Hp].
  assert (E : match String c rest with
              | String "-" rest => (-1, rest)
              | String "+" rest => (1, rest)
              | _ => (1, String c rest)
              end = (1, String c rest)).
  { destruct c as [[] [] [] [] [] [] [] []]; try reflexivity; congruence. }
  rewrite E. cbn [digits_prefix]. rewrite Hd. cbn [from_option id].
  replace (10 * 0 + d) with d by lia.
  destruct (digits_prefix rest (Some d)) as [n|]; [|reflexivity].
  f_equal. lia.
Qed.

Lemma parseInt_numeric (s : string) :
  numeric_string s = true -> parseInt s = to_double (decimal_value s).
Proof.
  destruct s as [|c rest]; [discriminate|].
  unfold numeric_string. cbn [string_truthy all_digits andb].
  intros H. apply andb_prop in H as [Hc Hrest].
  apply bool_decide_eq_true in Hc as [d Hd].
  rewrite (parseInt_leading_digit _ _ _ Hd).
  rewrite (digits_prefix_all_digits _ _ Hrest).
  cbn [decimal_value]. rewrite Hd. reflexivity.
Qed.

Lemma decimal_value_nonneg (s : string) : 0 <= decimal_value s.
Proof.
  induction s as [|c rest IH]; [cbn; lia|]. cbn [decimal_value].
  assert (0 <= default 0 (digit_of c)).
  { destruct (digit_of c) as [d|] eqn:E; cbn; [|lia].
    unfold digit_of in E.
    destruct (Z.leb_spec 48 (code c)); cbn in E; [|discriminate].
    destruct (code c <=? 57); [|discriminate]. injection E as <-. lia. }
  assert (0 <= 10 ^ Z.of_nat (String.length rest)) by (apply Z.pow_nonneg; lia).
  nia.
Qed.

(** From 2^1024 the double is an infinity. *)
Lemma to_double_huge (v : Z) :
  2 ^ 1024 <= v -> to_double v = Infinity false.
Proof.
  intros Hv.
  assert (Hpos : 0 < 2 ^ 1024) by (apply Z.pow_pos_nonneg; lia).
  unfold to_double. rewrite (Z.abs_eq v) by lia.
  assert (Hbig : 2 ^ 1024 <= round_magnitude v).
  { unfold round_magnitude.
    assert (Hlog : 1024 <= Z.log2 v) by (apply Z.log2_le_pow2; lia).
    destruct (Z.leb_spec (Z.log2 v + 1) 53) as [|_]; [lia|].
    set (shift := Z.log2 v + 1 - 53).
    pose proof (Z.log2_spec v ltac:(lia)) as [Hlo _].
    replace (Z.log2 v) with (52 + shift) in Hlo by (unfold shift; lia).
    rewrite Z.pow_add_r in Hlo by (unfold shift; lia).
    assert (Hunit : 0 < 2 ^ shift) by (apply Z.pow_pos_nonneg; unfold shift; lia).
    assert (Hq : 2 ^ 52 <= v / 2 ^ shift)
      by (apply Z.div_le_lower_bound; lia).
    assert (Hfloor : 2 ^ 1024 <= 2 ^ 52 * 2 ^ shift).
    { rewrite <- Z.pow_add_r by (unfold shift; lia).
      apply Z.pow_le_mono_r; unfold shift; lia. }
    destruct (_ || _); nia. }
  destruct (Z.leb_spec (2 ^ 1024) (round_magnitude v)); [|lia].
  by destruct (Z.ltb_spec v 0); [lia|].
Qed.

Lemma digits_prefix_no_digit (s : string) :
  no_leading_digit s = true -> digits_prefix s None = None.
Proof.
  destruct s as [|c rest]; [reflexivity|]. cbn [no_leading_digit digits_prefix].
  intros H. apply negb_true_iff, bool_decide_eq_false in H.
  destruct (digit_of c) as [d|]; [|reflexivity]. exfalso. apply H. eauto.
Qed.

Lemma ascii_space_white (c : ascii) :
  c ∈ ascii_spaces -> is_white_space c = true.
Proof.
  unfold ascii_spaces. intros H.
  repeat (apply elem_of_cons in H as [->|H]; [reflexivity|]).
  by apply elem_of_nil in H.
Qed.

Lemma not_ascii_space (c : ascii) :
  code c < 128 -> c ∉ ascii_spaces -> is_white_space c = false.
Proof.
  intros Hc Hout.
  destruct (is_white_space c) eqn:E; [|reflexivity].
  exfalso. apply Hout.
  destruct c as [[] [] [] [] [] [] [] []]; try discriminate E;
    first [ by (vm_compute in Hc; discriminate Hc)
          | unfold ascii_spaces; repeat constructor ].
Qed.

(** A string with no integer to read gives NaN. *)
Lemma parseInt_unparsable (s : string) :
  unparsable s = true -> parseInt s = NaN.
Proof.
  induction s as [|c rest IH]; [reflexivity|]. cbn [unparsable].
  case_bool_decide as Hspace.
  { intros H. rewrite <- (IH H). unfold parseInt. cbn [trim_start].
    by rewrite (ascii_space_white _ Hspace). }
  case_bool_decide as Hsign.
  { intros H. unfold parseInt.
    rewrite trim_start_ascii
      by (destruct Hsign as [->| ->]; vm_compute; reflexivity).
    destruct Hsign as [->| ->]; by rewrite (digits_prefix_no_digit _ H). }
  intros H. apply andb_prop in H as [Hc Hdigit]. apply Z.ltb_lt in Hc.
  unfold parseInt.
  rewrite trim_start_ascii by (first [ exact Hc | by apply not_ascii_space ]).
  assert (E : match String c rest with
              | String "-" rest => (-1, rest)
              | String "+" rest => (1, rest)
              | _ => (1, String c rest)
              end = (1, String c rest)).
  { destruct c as [[] [] [] [] [] [] [] []]; try reflexivity;
      exfalso; apply Hsign; auto. }
  rewrite E. by rewrite (digits_prefix_no_digit _ Hdigit).
Qed.

Lemma digits_prefix_then_other (ds rest : string) (a : Z) :
  all_digits ds = true -> no_leading_digit rest = true ->
  digits_prefix (ds +:+ rest) (Some a)
  = Some (a * 10 ^ Z.of_nat (String.length ds) + decimal_value ds).
Proof.
  revert a. induction ds as [|c ds IH]; intros a Hds Hrest.
  - change (EmptyString +:+ rest) with rest. cbn [String.length decimal_value].
    replace (a * 10 ^ Z.of_nat 0 + 0) with a by (cbn; lia).
    destruct rest as [|c r]; [reflexivity|]. cbn [digits_prefix].
    cbn [no_leading_digit] in Hrest. apply negb_true_iff in Hrest.
    apply bool_decide_eq_false in Hrest.
    destruct (digit_of c) as [d|]; [|reflexivity].
    exfalso. apply Hrest. eauto.
  - cbn [all_digits] in Hds. apply andb_prop in Hds as [Hc Hds].
    apply bool_decide_eq_true in Hc as [d Hd].
    change (String c ds +:+ rest) with (String c (ds +:+ rest)).
    cbn [digits_prefix decimal_value String.length]. rewrite Hd.
    rewrite (IH _ Hds Hrest). cbn [from_option id]. f_equal.
    rewrite Nat2Z.inj_succ, Z.pow_succ_r by lia. ring.
Qed.

Lemma parseInt_digits_then_other (ds rest : string) :
  numeric_string ds = true -> no_leading_digit rest = true ->
  parseInt (ds +:+ rest) = to_double (decimal_value ds).
Proof.
  destruct ds as [|c ds]; [discriminate|].
  unfold numeric_string. cbn [string_truthy all_digits andb].
  intros H Hrest. apply andb_prop in H as [Hc Hds].
  apply bool_decide_eq_true in Hc as [d Hd].
  change (String c ds +:+ rest) with (String c (ds +:+ rest)).
  rewrite (parseInt_leading_digit _ _ _ Hd).
  rewrite (digits_prefix_then_other _ _ _ Hds Hrest).
  cbn [decimal_value]. by rewrite Hd.
Qed.

Lemma parseInt_minus_digits (ds rest : string) :
  numeric_string ds = true -> no_leading_digit rest = true ->
  parseInt (String "-" (ds +:+ rest)) = to_double (- decimal_value ds).
Proof.
  destruct ds as [|c ds]; [discriminate|].
  unfold numeric_string. cbn [string_truthy all_digits andb].
  intros H Hrest. apply andb_prop in H as [Hc Hds].
  apply bool_decide_eq_true in Hc as [d Hd].
  change (String c ds +:+ rest) with (String c (ds +:+ rest)).
  unfold parseInt. rewrite trim_start_ascii by (vm_compute; reflexivity).
  cbn [digits_prefix]. rewrite Hd. cbn [from_option id].
  rewrite (digits_prefix_then_other _ _ _ Hds Hrest).
  cbn [decimal_value]. rewrite Hd. cbn [from_option id]. f_equal; lia.
Qed.

Lemma parseInt_plus_digits (ds rest : string) :
  numeric_string ds = true -> no_leading_digit rest = true ->
  parseInt (String "+" (ds +:+ rest)) = to_double (decimal_value ds).
Proof.
  destruct ds as [|c ds]; [discriminate|].
  unfold numeric_string. cbn [string_truthy all_digits andb].
  intros H Hrest. apply andb_prop in H as [Hc Hds].
  apply bool_decide_eq_true in Hc as [d Hd].
  change (String c ds +:+ rest) with (String c (ds +:+ rest)).
  unfold parseInt. rewrite trim_start_ascii by (vm_compute; reflexivity).
  cbn [digits_prefix]. rewrite Hd. cbn [from_option id].
  rewrite (digits_prefix_then_other _ _ _ Hds Hrest).
  cbn [decimal_value]. rewrite Hd. cbn [from_option id]. f_equal; lia.
Qed.

(** Every white space of the list is skipped. *)
Lemma trim_start_white_space (w s : string) :
  w ∈ white_spaces -> trim_start (w +:+ s) = trim_start s.
Proof.
  unfold white_spaces. cbn [map]. intros H.
  repeat (apply elem_of_cons in H as [->|H]; [reflexivity|]).
  by apply elem_of_nil in H.
Qed.

(** A string that reads as an integer is parsed to the double of that
    integer. *)
Lemma parseInt_reads (s : string) (v : Z) :
  reads s v -> parseInt s = to_double v.
Proof.
  induction 1 as [w s v Hw _ IH|ds rest Hds Hrest|ds rest Hds Hrest
                  |ds rest Hds Hrest].
  - rewrite <- IH. unfold parseInt. by rewrite trim_start_white_space.
  - by apply parseInt_minus_digits.
  - by apply parseInt_plus_digits.
  - by apply parseInt_digits_then_other.
Qed.

Lemma numeric_string_reads (s : string) :
  numeric_string s = true -> reads s (decimal_value s).
Proof.
  intros Hs. replace s with (s +:+ EmptyString) at 1.
  - by apply reads_digits.
  - clear Hs. induction s as [|c s IH]; [done|].
    change (String c s +:+ EmptyString) with (String c (s +:+ EmptyString)).
    by rewrite IH.
Qed.

(** [parseInt] on a string whose value is not a double, behind white space
    that is not of ASCII (U+00A0 as one byte and in UTF-8, U+FEFF), with
    more digits than a double has room for, and without an integer. *)
Lemma parseInt_examples :
  parseInt "9007199254740993" = Int 9007199254740992
  /\ parseInt (String "160" "8080") = Int 8080
  /\ parseInt (String "194" (String "160" "8080")) = Int 8080
  /\ parseInt (String "239" (String "187" (String "191" " -77x"))) = Int (-77)
  /\ parseInt ("1" +:+ zeros 400) = Infinity false
  /\ parseInt "-0" = Int 0
  /\ parseInt "px" = NaN.
Proof. repeat split; vm_compute; reflexivity. Qed.

(** Numbers as a template literal prints them. *)
Lemma print_number_examples :
  print_number (Int (2 ^ 64)) = "18446744073709552000"
  /\ print_number (Int (10 ^ 21)) = "1e+21"
  /\ print_number (Int (2 ^ 70)) = "1.1805916207174113e+21"
  /\ print_number (Int (- (2 ^ 53 + 2))) = "-9007199254740994"
  /\ print_number (Fraction false 1 D5 1) = "1.5"
  /\ print_number (Fraction true 0 D1 7) = "-1e-7"
  /\ print_number (Infinity false) = "Infinity".
Proof. repeat split; vm_compute; reflexivity. Qed.

(** ** The blocks of [parseSocksProxy] *)

Lemma keep_truthy_Some (o : option string) (s : string) :
  keep_truthy o = Some s -> o = Some s /\ s <> EmptyString.
Proof.
  unfold keep_truthy. destruct o as [[|c r]|]; cbn; intros H; try discriminate.
  injection H as <-. split; [reflexivity | discriminate].
Qed.

Lemma parse_host_nonempty (opts : Opts.t) (h : string) :
  parse_host opts = Some h -> h <> EmptyString.
Proof. intros H. apply keep_truthy_Some in H. tauto. Qed.

Lemma parse_host_absent (opts : Opts.t) :
  opt_truthy (Opts.hostname opts) = false ->
  opt_truthy (Opts.host opts) = false ->
  parse_host opts = None.
Proof.
  unfold parse_host, opt_or, keep_truthy. intros H1 H2.
  rewrite H1, H2. reflexivity.
Qed.

Lemma number_truthy_spec (n : number) :
  number_truthy n = true <-> n <> Int 0 /\ n <> NaN.
Proof.
  destruct n as [z| | |]; cbn.
  - rewrite negb_true_iff, Z.eqb_neq. split.
    + intros Hz. split; congruence.
    + intros [Hz _] ->. by apply Hz.
  - split; [discriminate | intros [_ H]; by destruct H].
  - split; [done | reflexivity].
  - split; [done | reflexivity].
Qed.

Lemma parse_port_nonzero (opts : Opts.t) :
  parse_port opts <> Int 0 /\ parse_port opts <> NaN.
Proof.
  unfold parse_port.
  match goal with |- context [number_truthy ?n] =>
    destruct (number_truthy n) eqn:E end.
  - by apply number_truthy_spec.
  - split; discriminate.
Qed.

Lemma parse_port_truthy (opts : Opts.t) (n : number) :
  (Opts.port opts = VNumber n
   \/ exists s, Opts.port opts = VString s /\ parseInt s = n) ->
  n <> Int 0 -> n <> NaN -> parse_port opts = n.
Proof.
  intros Hport H0 Hnan. unfold parse_port.
  assert (Ht : number_truthy n = true) by (by apply number_truthy_spec).
  destruct Hport as [-> | (s & -> & ->)]; by rewrite Ht.
Qed.

Lemma parse_port_falsy (opts : Opts.t) (n : number) :
  (Opts.port opts = VNumber n
   \/ exists s, Opts.port opts = VString s /\ parseInt s = n) ->
  n = Int 0 \/ n = NaN -> parse_port opts = Int 1080.
Proof.
  intros Hport Hn. unfold parse_port.
  destruct Hport as [-> | (s & -> & ->)]; by destruct Hn as [-> | ->].
Qed.

Lemma parse_port_other (opts : Opts.t) :
  (forall n, Opts.port opts <> VNumber n) ->
  (forall s, Opts.port opts <> VString s) ->
  parse_port opts = Int 1080.
Proof.
  intros Hn Hs. unfold parse_port.
  destruct (Opts.port opts) as [| |b|n|s|s|l]; try reflexivity.
  - by destruct (Hn n).
  - by destruct (Hs s).
Qed.

(** The port read from a string. *)
Lemma parse_port_reads (opts : Opts.t) (s : string) (v : Z) :
  Opts.port opts = VString s -> reads s v ->
  (v <> 0 ->
     number_value v (parse_port opts)
     /\ (Z.abs v <= 2 ^ 53 -> parse_port opts = Int v))
  /\ (v = 0 -> parse_port opts = Int 1080).
Proof.
  intros Hport Hs. pose proof (parseInt_reads _ _ Hs) as Hparse.
  split.
  - intros Hv. destruct (to_double_nonzero v Hv) as [H0 Hnan].
    assert (E : parse_port opts = to_double v).
    { apply parse_port_truthy; [|done..]. right. by exists s. }
    rewrite E. split; [apply to_double_number_value|].
    intros Hsmall. apply to_double_small. lia.
  - intros ->. apply (parse_port_falsy _ (Int 0)); [|by left].
    right. exists s. by rewrite Hparse.
Qed.

Lemma protocol_switch_type (protocol : string) (l0 l : bool) (t0 t : Z) :
  protocol_switch protocol l0 t0 = OK (l, t) -> t = 4 \/ t = 5.
Proof.
  unfold protocol_switch. intros H.
  repeat case_bool_decide; inversion H; auto.
Qed.

Lemma parse_protocol_type (opts : Opts.t) (l : bool) (t : Z) :
  parse_protocol opts = OK (l, t) -> t = 4 \/ t = 5.
Proof.
  unfold parse_protocol. intros H.
  destruct (Opts.protocol opts) as [p|]; [destruct (string_truthy p)|];
    first [ by eapply protocol_switch_type | inversion H; auto ].
Qed.

Lemma parse_type_range (opts : Opts.t) (t0 t : Z) :
  parse_type opts t0 = OK t -> t0 = 4 \/ t0 = 5 -> t = 4 \/ t = 5.
Proof.
  unfold parse_type. intros H Ht0.
  destruct (Opts.type opts) as [| |b|[z| | |]|s|s|l]; try discriminate.
  - injection H as <-. exact Ht0.
  - destruct z as [|[[[]|[]|]|[[]|[]|]|]|]; try discriminate;
      injection H as <-; auto.
Qed.

Lemma parse_type_invalid (opts : Opts.t) (t0 : Z) :
  Opts.type opts <> VUndefined ->
  valid_type (Opts.type opts) = false ->
  parse_type opts t0 = Throw (TypeError (bad_type_message (Opts.type opts))).
Proof.
  unfold parse_type, valid_type. intros Hdef Hbad.
  destruct (Opts.type opts) as [| |b|[z| | |]|s|s|l]; try reflexivity;
    [congruence|].
  destruct z as [|[[[]|[]|]|[[]|[]|]|]|]; try reflexivity;
    vm_compute in Hbad; discriminate.
Qed.

Lemma parseSocksProxy_OK_inv (opts : Opts.t) (l : bool) (p : Proxy.t) :
  parseSocksProxy opts = OK (l, p) ->
  exists t0,
    parse_host opts = Some (Proxy.host p)
    /\ Proxy.port p = parse_port opts
    /\ parse_protocol opts = OK (l, t0)
    /\ parse_type opts t0 = OK (Proxy.type p)
    /\ Proxy.userId p = keep_truthy (parse_credentials opts).1
    /\ Proxy.password p = keep_truthy (parse_credentials opts).2.
Proof.
  unfold parseSocksProxy. intros H.
  destruct (parse_host opts) as [h|]; [|discriminate].
  destruct (parse_protocol opts) as [[l0 t0]|e]; [|discriminate].
  cbn [bind_result] in H.
  destruct (parse_type opts t0) as [t|e] eqn:Ht; [|discriminate].
  cbn [bind_result] in H.
  destruct (parse_credentials opts) as [u pw].
  injection H as <- <-. exists t0. cbn. rewrite Ht. repeat split; reflexivity.
Qed.

Lemma parseSocksProxy_OK_intro (opts : Opts.t) (h : string) (l : bool) (t0 t : Z) :
  parse_host opts = Some h ->
  parse_protocol opts = OK (l, t0) ->
  parse_type opts t0 = OK t ->
  parseSocksProxy opts
  = OK (l, Proxy.make h (parse_port opts) t
             (keep_truthy (parse_credentials opts).1)
             (keep_truthy (parse_credentials opts).2)).
Proof.
  unfold parseSocksProxy. intros -> -> . cbn [bind_result]. intros ->.
  cbn [bind_result]. destruct (parse_credentials opts). reflexivity.
Qed.

Lemma has_host_parse_host (opts : Opts.t) :
  has_host opts = true -> exists h, parse_host opts = Some h.
Proof.
  unfold has_host, parse_host, opt_or, keep_truthy. intros H.
  destruct (opt_truthy (Opts.hostname opts)) eqn:E1.
  - rewrite E1. destruct (Opts.hostname opts); [eauto | discriminate].
  - cbn in H. rewrite H. destruct (Opts.host opts); [eauto | discriminate].
Qed.

Lemma no_host_parse_host (opts : Opts.t) :
  has_host opts = false -> parse_host opts = None.
Proof.
  unfold has_host. intros H. apply orb_false_elim in H as [H1 H2].
  by apply parse_host_absent.
Qed.

Lemma parse_type_undefined (opts : Opts.t) (t0 : Z) :
  Opts.type opts = VUndefined -> parse_type opts t0 = OK t0.
Proof. unfold parse_type. intros ->. reflexivity. Qed.

Lemma parse_protocol_scheme (opts : Opts.t) (s : string) :
  Opts.protocol opts = Some s ->
  s ∈ socks_schemes ->
  parse_protocol opts
  = OK (resolving_scheme (Some s),
        if bool_decide (s = "socks4:" \/ s = "socks4a:") then 4 else 5).
Proof.
  unfold parse_protocol, socks_schemes. intros -> Hs.
  repeat (apply elem_of_cons in Hs as [->|Hs]; [reflexivity|]).
  by apply elem_of_nil in Hs.
Qed.

Lemma parse_protocol_default (opts : Opts.t) :
  opt_truthy (Opts.protocol opts) = false ->
  parse_protocol opts = OK (false, 5).
Proof.
  unfold parse_protocol. destruct (Opts.protocol opts) as [s|]; cbn.
  - intros ->. reflexivity.
  - reflexivity.
Qed.

Lemma parse_protocol_other (opts : Opts.t) (s : string) :
  Opts.protocol opts = Some s ->
  s <> EmptyString ->
  s ∉ socks_schemes ->
  parse_protocol opts = Throw (TypeError (bad_protocol_message s)).
Proof.
  unfold parse_protocol, socks_schemes. intros -> Hne Hs.
  destruct s as [|c r]; [congruence|]. cbn [string_truthy].
  unfold protocol_switch.
  repeat (case_bool_decide as E;
          [exfalso; apply Hs; rewrite E; repeat constructor | clear E]).
  reflexivity.
Qed.

Lemma parse_protocol_flag (opts : Opts.t) (l : bool) (t : Z) :
  parse_protocol opts = OK (l, t) ->
  l = resolving_scheme (Opts.protocol opts).
Proof.
  unfold parse_protocol, resolving_scheme.
  destruct (Opts.protocol opts) as [s|].
  - destruct s as [|c r]; cbn [string_truthy].
    + intros H. injection H as <- <-. symmetry. apply bool_decide_eq_false.
      intros [?|?]; discriminate.
    + unfold protocol_switch. intros H.
      repeat (case_bool_decide as E;
              [rewrite E in *; injection H as <- <-; reflexivity | clear E]).
      discriminate.
  - intros H. injection H as <- <-. symmetry. apply bool_decide_eq_false.
    intros [?|?]; discriminate.
Qed.

Lemma accepted_protocol_OK (opts : Opts.t) :
  accepted_protocol opts = true -> exists l t, parse_protocol opts = OK (l, t).
Proof.
  unfold accepted_protocol. destruct (Opts.protocol opts) as [s|] eqn:E.
  - intros H. apply orb_prop in H as [H|H].
    + apply negb_true_iff in H. exists false, 5.
      apply parse_protocol_default. by rewrite E.
    + apply bool_decide_eq_true in H. eexists _, _.
      by apply parse_protocol_scheme.
  - intros _. exists false, 5. apply parse_protocol_default. by rewrite E.
Qed.

(** Parsing returns a descriptor whenever the three checks pass. *)
Lemma parseSocksProxy_succeeds (opts : Opts.t) :
  has_host opts = true ->
  accepted_protocol opts = true ->
  Opts.type opts = VUndefined \/ valid_type (Opts.type opts) = true ->
  exists l p, parseSocksProxy opts = OK (l, p).
Proof.
  intros Hh Hp Ht.
  apply has_host_parse_host in Hh as [h Hh].
  apply accepted_protocol_OK in Hp as (l & t0 & Hp).
  assert (exists t, parse_type opts t0 = OK t) as [t Htype].
  { unfold parse_type, valid_type in *. destruct Ht as [->|Ht]; [eauto|].
    apply orb_prop in Ht as [Ht|Ht]; apply bool_decide_eq_true in Ht;
      rewrite Ht; eauto. }
  eexists _, _. by eapply parseSocksProxy_OK_intro.
Qed.

(** ** Scheme, type and resolution flag *)

(** C2, counterexample: the scheme [socks4:] together with an explicit
    [type: 5] yields type 5, not the type 4 of the scheme. *)
Lemma C2_explicit_type_overrides_scheme :
  Opts.protocol socks4_typed_5 = Some "socks4:"
  /\ exists p, parseSocksProxy socks4_typed_5 = OK (true, p)
               /\ Proxy.type p = 5 /\ Proxy.type p <> 4.
Proof.
  split; [reflexivity|]. eexists. split; [reflexivity|].
  cbn. split; [reflexivity | discriminate].
Qed.

(** C2, amended: for a specification with a host and no explicit [type]
    field the scheme gives (type, resolution flag): [socks4:] (4, true),
    [socks4a:] (4, false), [socks5:] (5, true), [socks:] (5, false),
    [socks5h:] (5, false), and an absent or empty protocol (5, false); an
    explicit type 4 or 5 replaces the type and leaves the flag of the
    scheme; any other non-empty scheme makes parsing throw the error whose
    message ends with that scheme. *)
Theorem C2_scheme_type_and_flag (opts : Opts.t) :
  has_host opts = true ->
  (Opts.type opts = VUndefined ->
     (Opts.protocol opts = Some "socks4:" ->
        exists p, parseSocksProxy opts = OK (true, p) /\ Proxy.type p = 4)
     /\ (Opts.protocol opts = Some "socks4a:" ->
        exists p, parseSocksProxy opts = OK (false, p) /\ Proxy.type p = 4)
     /\ (Opts.protocol opts = Some "socks5:" ->
        exists p, parseSocksProxy opts = OK (true, p) /\ Proxy.type p = 5)
     /\ (Opts.protocol opts = Some "socks:" ->
        exists p, parseSocksProxy opts = OK (false, p) /\ Proxy.type p = 5)
     /\ (Opts.protocol opts = Some "socks5h:" ->
        exists p, parseSocksProxy opts = OK (false, p) /\ Proxy.type p = 5)
     /\ (opt_truthy (Opts.protocol opts) = false ->
        exists p, parseSocksProxy opts = OK (false, p) /\ Proxy.type p = 5))
  /\ (forall l p z, parseSocksProxy opts = OK (l, p) ->
        Opts.type opts = VNumber (Int z) ->
        Proxy.type p = z /\ l = resolving_scheme (Opts.protocol opts))
  /\ (forall s, Opts.protocol opts = Some s -> s <> EmptyString -> s ∉ socks_schemes ->
        parseSocksProxy opts = Throw (TypeError (bad_protocol_message s))
        /\ exists prefix, bad_protocol_message s = prefix +:+ s).
Proof.
  intros Hh. apply has_host_parse_host in Hh as [h Hh].
  assert (Hscheme : forall s, Opts.type opts = VUndefined ->
            Opts.protocol opts = Some s -> s ∈ socks_schemes ->
            exists p, parseSocksProxy opts = OK (resolving_scheme (Some s), p)
              /\ Proxy.type p
                 = if bool_decide (s = "socks4:" \/ s = "socks4a:") then 4 else 5).
  { intros s Ht Hs Hin. eexists. split.
    - eapply parseSocksProxy_OK_intro; [exact Hh | | by apply parse_type_undefined].
      by apply parse_protocol_scheme.
    - reflexivity. }
  split; [|split].
  - intros Ht. repeat split.
    1-5: intros Hs; apply (Hscheme _ Ht Hs); unfold socks_schemes;
      repeat constructor.
    intros Hs. eexists. split.
    + eapply parseSocksProxy_OK_intro; [exact Hh | | by apply parse_type_undefined].
      by apply parse_protocol_default.
    + reflexivity.
  - intros l p z Hp Ht.
    apply parseSocksProxy_OK_inv in Hp as (t0 & _ & _ & Hproto & Htype & _).
    split; [|by eapply parse_protocol_flag].
    unfold parse_type in Htype. rewrite Ht in Htype.
    destruct z as [|[[[]|[]|]|[[]|[]|]|]|]; try discriminate;
      injection Htype as <-; reflexivity.
  - intros s Hs Hne Hout. split.
    + unfold parseSocksProxy. rewrite Hh.
      rewrite (parse_protocol_other _ _ Hs Hne Hout). reflexivity.
    + exists ("A " +:+ dquote +:+ "socks" +:+ dquote
              +:+ " protocol must be specified! Got: "). reflexivity.
Qed.

Lemma C2_scheme_type_and_flag_witness :
  has_host socks4_plain = true
  /\ Opts.type socks4_plain = VUndefined
  /\ Opts.protocol socks4_plain = Some "socks4:"
  /\ exists p, parseSocksProxy socks4_plain = OK (true, p) /\ Proxy.type p = 4.
Proof.
  split; [reflexivity|]. split; [reflexivity|]. split; [reflexivity|].
  apply (C2_scheme_type_and_flag socks4_plain); reflexivity.
Defined.

(** ** Credentials *)

Lemma parse_credentials_without_auth (opts : Opts.t) :
  opt_truthy (Opts.auth opts) = false ->
  parse_credentials opts
  = (opt_or (Opts.userId opts) (Opts.username opts), Opts.password opts).
Proof.
  unfold parse_credentials. destruct (Opts.auth opts) as [a|]; cbn.
  - intros ->. reflexivity.
  - reflexivity.
Qed.

(** With a combined [auth], the separate fields are not consulted. *)
Lemma parse_credentials_with_auth (opts : Opts.t) (a : string) :
  Opts.auth opts = Some a -> a <> EmptyString ->
  parse_credentials opts = (split ":" a !! 0%nat, split ":" a !! 1%nat).
Proof.
  unfold parse_credentials. intros -> Ha.
  destruct a; [congruence|]. reflexivity.
Qed.

Lemma split_no_colon (s : string) :
  no_colon s = true -> split ":" s = [s].
Proof.
  induction s as [|c rest IH]; [reflexivity|]. cbn [no_colon split].
  intros H. apply andb_prop in H as [Hc Hrest].
  apply negb_true_iff in Hc. rewrite Hc, (IH Hrest). reflexivity.
Qed.

(** [userId:password] with a single colon is split as written. *)
Lemma split_one_colon (user pass : string) :
  no_colon user = true -> no_colon pass = true ->
  split ":" (user +:+ String ":" pass) = [user; pass].
Proof.
  intros Hu Hp. induction user as [|c rest IH].
  - change (EmptyString +:+ String ":" pass) with (String ":" pass). cbn [split].
    rewrite bool_decide_true by reflexivity.
    rewrite (split_no_colon _ Hp). reflexivity.
  - cbn [no_colon] in Hu. apply andb_prop in Hu as [Hc Hrest].
    apply negb_true_iff in Hc.
    change (String c rest +:+ String ":" pass)
      with (String c (rest +:+ String ":" pass)).
    cbn [split]. rewrite Hc, (IH Hrest). reflexivity.
Qed.

(** C5, at the failing input: the password of [auth: 'user:pa:ss'] is cut
    at its own colon, [split] having cut at every colon. *)
Theorem C5_password_cut_at_second_colon :
  split ":" "user:pa:ss" = ["user"; "pa"; "ss"]
  /\ exists p, parseSocksProxy auth_two_colons = OK (false, p)
       /\ Proxy.userId p = Some "user"
       /\ Proxy.password p = Some "pa"
       /\ Proxy.password p <> Some "pa:ss".
Proof.
  split; [reflexivity|]. eexists. split; [reflexivity|].
  cbn. repeat split; [reflexivity.. | discriminate].
Qed.

(** ** The port *)

(** C6: the port of the descriptor is the port given as a number (any
    number but 0 and NaN), or the base-10 value of the port given as a
    numeric string, as a Number: the value itself up to 2^53, a double
    nearest to it beyond, an infinity when it is too large for a double.
    The same holds of any string that reads as an integer (white space, a
    sign, digits, then anything). A port that is absent (neither a number
    nor a string), zero (the number 0, a string that reads as 0) or
    unparsable (NaN, a string with no integer to read) gives 1080. *)
Theorem C6_port_of_descriptor (opts : Opts.t) (l : bool) (p : Proxy.t) :
  parseSocksProxy opts = OK (l, p) ->
  (forall n, Opts.port opts = VNumber n -> n <> Int 0 -> n <> NaN ->
     Proxy.port p = n)
  /\ (forall s, Opts.port opts = VString s -> numeric_string s = true ->
        decimal_value s <> 0 ->
        number_value (decimal_value s) (Proxy.port p)
        /\ (decimal_value s <= 2 ^ 53 -> Proxy.port p = Int (decimal_value s)))
  /\ (forall s v, Opts.port opts = VString s -> reads s v -> v <> 0 ->
        number_value v (Proxy.port p)
        /\ (Z.abs v <= 2 ^ 53 -> Proxy.port p = Int v))
  /\ ((Opts.port opts = VUndefined \/ Opts.port opts = VNull
       \/ ((forall n, Opts.port opts <> VNumber n)
           /\ (forall s, Opts.port opts <> VString s))) ->
        Proxy.port p = Int 1080)
  /\ (Opts.port opts = VNumber (Int 0)
      \/ (exists s, Opts.port opts = VString s /\ reads s 0) ->
        Proxy.port p = Int 1080)
  /\ (Opts.port opts = VNumber NaN
      \/ (exists s, Opts.port opts = VString s /\ unparsable s = true) ->
        Proxy.port p = Int 1080).
Proof.
  intros Hp. apply parseSocksProxy_OK_inv in Hp as (_ & _ & -> & _).
  split; [|split; [|split; [|split; [|split]]]].
  - intros n Hn H0 Hnan. apply parse_port_truthy; auto.
  - intros s Hs Hnum Hv.
    destruct (parse_port_reads _ _ _ Hs (numeric_string_reads _ Hnum))
      as [Hread _].
    destruct (Hread Hv) as [Hvalue Hexact]. split; [exact Hvalue|].
    intros Hsmall. apply Hexact.
    pose proof (decimal_value_nonneg s). lia.
  - intros s v Hs Hreads Hv.
    by apply (parse_port_reads _ _ _ Hs Hreads).
  - intros [H | [H | [Hn Hs]]].
    + apply parse_port_other; rewrite H; discriminate.
    + apply parse_port_other; rewrite H; discriminate.
    + by apply parse_port_other.
  - intros [H | (s & Hs & Hreads)].
    + apply (parse_port_falsy _ (Int 0)); auto.
    + by apply (parse_port_reads _ _ _ Hs Hreads).
  - intros [H | (s & Hs & Hun)].
    + apply (parse_port_falsy _ NaN); auto.
    + apply (parse_port_falsy _ NaN); [|by right].
      right. exists s. split; [done|]. by apply parseInt_unparsable.
Qed.

Lemma C6_port_of_descriptor_witness :
  (exists l p, parseSocksProxy socks_9050 = OK (l, p)
     /\ Proxy.port p = Int 9050)
  /\ Opts.port socks_9050 = VString "9050"
  /\ numeric_string "9050" = true /\ decimal_value "9050" = 9050.
Proof.
  split; [|split; [|split]; reflexivity].
  destruct (parseSocksProxy socks_9050) as [[l p]|e] eqn:E;
    [|vm_compute in E; discriminate].
  exists l, p. split; [reflexivity|].
  destruct (C6_port_of_descriptor socks_9050 l p E) as (_ & H & _).
  destruct (H "9050" eq_refl eq_refl) as (_ & Hexact).
  - vm_compute. discriminate.
  - apply Hexact. vm_compute. discriminate.
Defined.

(** ** The invariant of descriptors *)

(** C7, counterexample: a negative port is truthy, so it is kept. *)
Lemma C7_negative_port_kept :
  exists l p, parseSocksProxy negative_port = OK (l, p)
    /\ Proxy.port p = Int (-1) /\ ~ positive_port (Proxy.port p).
Proof.
  eexists _, _. split; [reflexivity|]. cbn. split; [reflexivity|].
  intros (z & Hz & Hpos). injection Hz as <-. lia.
Qed.

(** A port that is not an integer is kept as well. *)
Lemma fractional_port_kept :
  exists l p, parseSocksProxy fractional_port = OK (l, p)
    /\ Proxy.port p = Fraction false 1 D5 1
    /\ to_string (VNumber (Proxy.port p)) = "1.5".
Proof. eexists _, _. split; [reflexivity|]. split; reflexivity. Qed.

(** C7, amended: every descriptor has type 4 or 5, a port that is a number
    other than 0 and NaN (nothing else is checked: a negative port, a port
    that is not an integer and an infinite one are kept) and a non-empty
    host. Parsing throws the "no host" error when neither [hostname] nor
    [host] is a non-empty string; an explicit type other than 4 or 5 yields
    no descriptor, and the error is the "invalid type" one when the host
    and the protocol have passed their checks, which come first. *)
Theorem C7_descriptor_invariant (opts : Opts.t) :
  (forall l p, parseSocksProxy opts = OK (l, p) ->
     (Proxy.type p = 4 \/ Proxy.type p = 5)
     /\ (Proxy.port p <> Int 0 /\ Proxy.port p <> NaN)
     /\ Proxy.host p <> EmptyString)
  /\ (has_host opts = false ->
        parseSocksProxy opts = Throw (TypeError no_host_message))
  /\ (Opts.type opts <> VUndefined -> valid_type (Opts.type opts) = false ->
        (exists e, parseSocksProxy opts = Throw e)
        /\ (has_host opts = true -> accepted_protocol opts = true ->
              parseSocksProxy opts
              = Throw (TypeError (bad_type_message (Opts.type opts))))).
Proof.
  split; [|split].
  - intros l p Hp.
    apply parseSocksProxy_OK_inv in Hp
      as (t0 & Hhost & Hport & Hproto & Htype & _).
    split; [|split].
    + eapply parse_type_range; [exact Htype|].
      by eapply parse_protocol_type.
    + rewrite Hport. apply parse_port_nonzero.
    + by eapply parse_host_nonempty.
  - intros Hh. unfold parseSocksProxy.
    by rewrite (no_host_parse_host _ Hh).
  - intros Hdef Hbad. split.
    + unfold parseSocksProxy.
      destruct (parse_host opts); [|eauto].
      destruct (parse_protocol opts) as [[l0 t0]|e]; [|cbn; eauto].
      cbn [bind_result]. rewrite (parse_type_invalid _ _ Hdef Hbad).
      cbn. eauto.
    + intros Hh Hp. apply has_host_parse_host in Hh as [h Hh].
      apply accepted_protocol_OK in Hp as (l0 & t0 & Hp).
      unfold parseSocksProxy. rewrite Hh, Hp. cbn [bind_result].
      by rewrite (parse_type_invalid _ _ Hdef Hbad).
Qed.

Lemma C7_descriptor_invariant_witness :
  exists l p, parseSocksProxy socks_9050 = OK (l, p)
    /\ (Proxy.type p = 4 \/ Proxy.type p = 5)
    /\ (Proxy.port p <> Int 0 /\ Proxy.port p <> NaN)
    /\ Proxy.host p <> EmptyString.
Proof.
  destruct (parseSocksProxy socks_9050) as [[l p]|e] eqn:E;
    [|vm_compute in E; discriminate].
  exists l, p. split; [reflexivity|].
  destruct (C7_descriptor_invariant socks_9050) as (H & _).
  exact (H l p E).
Defined.

(** ** Objects, [for ... in] and [omit] *)

Lemma spread_lookup (o : object) (k : string) :
  spread o !! k
  = match o !! k with
    | Some p =>
        if enumerable p then Some (enumerable_property (prop_value p)) else None
    | None => None
    end.
Proof.
  unfold spread. rewrite lookup_fmap, map_lookup_filter.
  destruct (o !! k) as [p|]; [|reflexivity]. cbn.
  destruct (enumerable p) eqn:E.
  - rewrite option_guard_True by done. reflexivity.
  - rewrite option_guard_False by (cbn; congruence). reflexivity.
Qed.

Lemma spread_all_enumerable (o : object) : all_enumerable (spread o).
Proof.
  intros k p. rewrite spread_lookup.
  destruct (o !! k) as [q|]; [|discriminate].
  destruct (enumerable q); [|discriminate]. by intros [= <-].
Qed.

Lemma omit_result_lookup (o : object) (keys : list string) (k : string) :
  omit_result o keys !! k
  = if bool_decide (k ∈ "__proto__" :: keys) then None else spread o !! k.
Proof.
  unfold omit_result. rewrite !spread_lookup, map_lookup_filter.
  destruct (o !! k) as [p|]; cbn.
  - case_bool_decide as Hin.
    + rewrite option_guard_False; [done|]. cbn.
      apply elem_of_cons in Hin as [->|Hin]; tauto.
    + rewrite option_guard_True; [done|]. cbn.
      split; intros H; apply Hin; apply elem_of_cons; auto.
  - by case_bool_decide.
Qed.

Lemma omit_result_all_enumerable (o : object) (keys : list string) :
  all_enumerable (omit_result o keys).
Proof. apply spread_all_enumerable. Qed.

Lemma elem_of_for_in (o : object) (k : string) :
  k ∈ for_in o <-> exists p, o !! k = Some p /\ enumerable p = true.
Proof.
  unfold for_in. rewrite list_elem_of_fmap. split.
  - intros ([k' p] & -> & Hin). apply elem_of_map_to_list in Hin.
    apply map_lookup_filter_Some in Hin as [Hk Hp]. eauto.
  - intros (p & Hk & Hp). exists (k, p). split; [reflexivity|].
    apply elem_of_map_to_list, map_lookup_filter_Some. auto.
Qed.

Lemma for_in_all_enumerable (o : object) (k : string) :
  all_enumerable o -> k ∈ for_in o <-> is_Some (o !! k).
Proof.
  intros Ho. rewrite elem_of_for_in. split.
  - intros (p & Hk & _). eauto.
  - intros [p Hk]. eauto.
Qed.

(** An assignment under a name other than [__proto__], on an object whose
    properties all enumerate. *)
Lemma set_all_enumerable (o : object) (k : string) (v : value) :
  all_enumerable o -> k <> "__proto__" ->
  set o k v = Some (<[k := enumerable_property v]> o).
Proof.
  intros Ho Hk. unfold set. destruct (o !! k) as [p|] eqn:E.
  - by rewrite (Ho _ _ E).
  - by rewrite bool_decide_false.
Qed.

(** An assignment under the name [__proto__], on an object that has no
    property of that name. *)
Lemma set_proto (o : object) (v : value) :
  o !! "__proto__" = None ->
  set o "__proto__" v = if object_or_null v then None else Some o.
Proof. unfold set. intros ->. cbn. by destruct v. Qed.

Lemma insert_all_enumerable (o : object) (k : string) (v : value) :
  all_enumerable o -> all_enumerable (<[k := enumerable_property v]> o).
Proof.
  intros Ho k' p. rewrite lookup_insert. case_decide.
  - by intros [= <-].
  - apply Ho.
Qed.

Lemma replaces_prototype_true (o : object) (keys : list string) :
  replaces_prototype o keys = true
  <-> "__proto__" ∈ for_in o /\ ("__proto__" ∉ keys)
      /\ object_or_null (get o "__proto__") = true.
Proof.
  unfold replaces_prototype.
  rewrite !andb_true_iff, negb_true_iff, bool_decide_eq_true,
    bool_decide_eq_false. tauto.
Qed.

(** The loop of [omit] only writes to [ret]: it adds, for each key of the
    enumeration that is not excluded, the value [obj] has there; but the
    key [__proto__] adds nothing, and ends the loop when the value is taken
    as a prototype. *)
Lemma omit_loop_spec (keys enumeration : list string) :
  forall (σ : Store) (obj ret : loc) (o r : object),
    obj <> ret ->
    σ !! obj = Some o ->
    σ !! ret = Some r ->
    all_enumerable r ->
    r !! "__proto__" = None ->
    ("__proto__" ∈ enumeration /\ ("__proto__" ∉ keys)
     /\ object_or_null (get o "__proto__") = true ->
       omit_loop σ obj ret keys enumeration = None)
    /\ (~ ("__proto__" ∈ enumeration /\ ("__proto__" ∉ keys)
           /\ object_or_null (get o "__proto__") = true) ->
        exists r',
          omit_loop σ obj ret keys enumeration = Some (<[ret := r']> σ)
          /\ all_enumerable r'
          /\ forall k,
               r' !! k
               = if bool_decide (k ∈ enumeration /\ k ∉ "__proto__" :: keys)
                 then Some (enumerable_property (get o k))
                 else r !! k).
Proof.
  induction enumeration as [|key rest IH];
    intros σ obj ret o r Hne Hobj Hret Hr Hproto.
  { split.
    - intros [H _]. by apply elem_of_nil in H.
    - intros _. exists r. cbn [omit_loop]. split; [by rewrite insert_id|].
      split; [done|]. intros k. rewrite bool_decide_false; [done|].
      intros [H _]. by apply elem_of_nil in H. }
  assert (Hstep : forall r1,
    all_enumerable r1 -> r1 !! "__proto__" = None ->
    (forall k, r1 !! k
               = if bool_decide (k = key /\ k ∉ "__proto__" :: keys)
                 then Some (enumerable_property (get o k)) else r !! k) ->
    (~ (key = "__proto__" /\ (key ∉ keys)
        /\ object_or_null (get o "__proto__") = true)) ->
    ("__proto__" ∈ key :: rest /\ ("__proto__" ∉ keys)
     /\ object_or_null (get o "__proto__") = true ->
       omit_loop (<[ret := r1]> σ) obj ret keys rest = None)
    /\ (~ ("__proto__" ∈ key :: rest /\ ("__proto__" ∉ keys)
           /\ object_or_null (get o "__proto__") = true) ->
        exists r',
          omit_loop (<[ret := r1]> σ) obj ret keys rest = Some (<[ret := r']> σ)
          /\ all_enumerable r'
          /\ forall k,
               r' !! k
               = if bool_decide (k ∈ key :: rest /\ k ∉ "__proto__" :: keys)
                 then Some (enumerable_property (get o k))
                 else r !! k)).
  { intros r1 Hr1 Hproto1 Hlook1 Hhere.
    destruct (IH (<[ret := r1]> σ) obj ret o r1) as [Hnone Hsome];
      [done | by rewrite lookup_insert_ne | by rewrite lookup_insert_eq
      | done | done |].
    split.
    - intros (Hin & Hout & Hv). apply Hnone. split; [|done].
      apply elem_of_cons in Hin as [Heq|Hin]; [|done].
      exfalso. apply Hhere. by rewrite <- Heq.
    - intros Hnot. destruct Hsome as (r' & -> & Hr' & Hlook).
      { intros (Hin & Hout & Hv). apply Hnot. split; [by right | done]. }
      exists r'. split; [by rewrite insert_insert_eq|]. split; [done|].
      intros k. rewrite Hlook, Hlook1.
      destruct (decide (k ∈ rest /\ k ∉ "__proto__" :: keys)) as [Hk|Hk].
      + rewrite !bool_decide_true; [done | | done].
        split; [right|]; tauto.
      + rewrite (bool_decide_false _ Hk).
        apply (f_equal (fun b : bool => if b then _ else _)).
        apply bool_decide_ext. rewrite (elem_of_cons rest k key). tauto. }
  cbn [omit_loop]. case_bool_decide as Hkey.
  { pose proof (Hstep r Hr Hproto) as H.
    rewrite (insert_id σ ret r Hret) in H. apply H; [|tauto].
    intros k. rewrite bool_decide_false; [done|].
    intros [-> Hout]. apply Hout. by right. }
  unfold store_set, store_get. rewrite Hret, Hobj. cbn [from_option id].
  destruct (decide (key = "__proto__")) as [->|Hother].
  - rewrite (set_proto _ _ Hproto).
    destruct (object_or_null (get o "__proto__")) eqn:Hv.
    + split; [done|]. intros Hnot. exfalso. apply Hnot.
      split; [left | split]; done.
    + apply Hstep; [done | done | | intros (_ & _ & ?); discriminate].
      intros k. rewrite bool_decide_false; [done|].
      intros [-> Hout]. apply Hout. by left.
  - rewrite (set_all_enumerable _ _ _ Hr Hother).
    apply Hstep; [by apply insert_all_enumerable
                 | by rewrite lookup_insert_ne | | tauto].
    intros k. rewrite lookup_insert.
    destruct (decide (key = k)) as [<-|Hk].
    + rewrite bool_decide_true; [done|]. split; [done|].
      intros Hin. apply elem_of_cons in Hin as [?|?]; done.
    + rewrite bool_decide_false; [done|]. intros [-> _]. done.
Qed.

(** [omit] allocates one object and fills it with [omit_result], unless
    the copy is given another prototype. *)
Lemma omit_spec (σ : Store) (obj : loc) (o : object) (keys : list string) :
  σ !! obj = Some o ->
  omit σ obj keys
  = if replaces_prototype o keys then None
    else Some (<[fresh (dom σ) := omit_result o keys]> σ, fresh (dom σ)).
Proof.
  intros Hobj. unfold omit. rewrite Hobj.
  set (ret := fresh (dom σ)).
  assert (Hfresh : σ !! ret = None) by apply not_elem_of_dom, is_fresh.
  assert (Hne : obj <> ret) by congruence.
  destruct (omit_loop_spec keys (for_in o) (<[ret := ∅]> σ) obj ret o ∅)
    as [Hnone Hsome].
  - done.
  - by rewrite lookup_insert_ne.
  - by rewrite lookup_insert_eq.
  - intros k p. by rewrite lookup_empty.
  - apply lookup_empty.
  - destruct (replaces_prototype o keys) eqn:Hrep.
    { apply replaces_prototype_true in Hrep. by rewrite (Hnone Hrep). }
    destruct Hsome as (r' & -> & _ & Hlook).
    { intros H. apply replaces_prototype_true in H. congruence. }
    rewrite insert_insert_eq. do 2 f_equal. f_equal. apply map_eq. intros k.
    rewrite Hlook, omit_result_lookup, spread_lookup, lookup_empty.
    unfold get.
    destruct (o !! k) as [p|] eqn:Hk.
    + destruct (enumerable p) eqn:Hp.
      * assert (k ∈ for_in o) by (apply elem_of_for_in; eauto).
        case_bool_decide as Hin.
        -- rewrite bool_decide_false; [done | tauto].
        -- rewrite bool_decide_true; [done|].
           destruct (decide (k ∈ "__proto__" :: keys)); [done | tauto].
      * rewrite bool_decide_false; [by case_bool_decide|].
        intros [Hin _]. apply elem_of_for_in in Hin as (q & Hq & Hen).
        congruence.
    + rewrite bool_decide_false; [by case_bool_decide|].
      intros [Hin _]. apply elem_of_for_in in Hin as (q & Hq & _). congruence.
Qed.

(** The enumerable keys of what [omit] returns, and their values. *)
Lemma omit_result_keys (o : object) (keys : list string) :
  (forall k, k ∈ for_in (omit_result o keys)
             <-> k ∈ for_in o /\ (k ∉ keys) /\ k <> "__proto__")
  /\ (forall k, k ∈ for_in (omit_result o keys) ->
        get (omit_result o keys) k = get o k).
Proof.
  assert (Hkeys : forall k, k ∈ for_in (omit_result o keys)
                    <-> k ∈ for_in o /\ (k ∉ keys) /\ k <> "__proto__").
  { intros k.
    rewrite (for_in_all_enumerable _ _ (omit_result_all_enumerable o keys)).
    rewrite omit_result_lookup, spread_lookup, elem_of_for_in.
    case_bool_decide as Hin.
    { split; [intros [? ?]; discriminate|]. intros (_ & Hout & Hp).
      apply elem_of_cons in Hin as [?|?]; done. }
    assert ((k ∉ keys) /\ k <> "__proto__") as [Hout Hp].
    { split; intros ?; apply Hin; apply elem_of_cons; auto. }
    destruct (o !! k) as [p|]; [destruct (enumerable p) eqn:E|].
    - split; intros _; eauto.
    - split; [intros [? ?]; discriminate|].
      intros [(q & [= <-] & Hq) _]. congruence.
    - split; [intros [? ?]; discriminate|].
      intros [(q & ? & _) _]. discriminate. }
  split; [exact Hkeys|].
  intros k Hk. apply Hkeys in Hk as (Hin & Hout & Hp).
  apply elem_of_for_in in Hin as (p & Hlook & Hen).
  unfold get. rewrite omit_result_lookup, spread_lookup, Hlook, Hen.
  rewrite bool_decide_false; [done|].
  intros H. apply elem_of_cons in H as [?|?]; done.
Qed.

(** C10, counterexample: [__proto__] is an enumerable key of the object,
    it is not in the list, and it is not a key of what [omit] returns. *)
Lemma C10_proto_key_not_copied :
  proto_store !! 0%nat = Some proto_object
  /\ "__proto__" ∈ for_in proto_object
  /\ exists σ' ret r,
       omit proto_store 0%nat [] = Some (σ', ret)
       /\ σ' !! ret = Some r
       /\ ("__proto__" ∉ for_in r)
       /\ get r "__proto__" = VUndefined
       /\ get proto_object "__proto__" = VNumber (Int 5).
Proof.
  split; [reflexivity|]. split.
  { apply elem_of_for_in. eexists. split; reflexivity. }
  eexists _, _, (omit_result proto_object []).
  split; [by rewrite (omit_spec proto_store 0%nat proto_object)|].
  split; [apply lookup_insert_eq|]. split; [|split; [|reflexivity]].
  - intros H. by apply omit_result_keys in H as (_ & _ & ?).
  - unfold get. rewrite omit_result_lookup.
    rewrite bool_decide_true; [done | by left].
Qed.

(** C10, amended: when [obj] has no enumerable [__proto__] outside the list
    that holds an object or null, [omit] returns a new object, whose keys
    all enumerate and are the enumerable keys of [obj] outside the list
    other than [__proto__], each with the value it has in [obj]; [obj] and
    every other object of the store are left as they were. *)
Theorem C10_omit_copies_and_leaves_obj (σ : Store) (obj : loc) (o : object)
    (keys : list string) :
  σ !! obj = Some o ->
  replaces_prototype o keys = false ->
  exists σ' ret r,
    omit σ obj keys = Some (σ', ret)
    /\ σ !! ret = None
    /\ σ' !! ret = Some r
    /\ all_enumerable r
    /\ (forall k, k ∈ for_in r
                  <-> k ∈ for_in o /\ (k ∉ keys) /\ k <> "__proto__")
    /\ (forall k, k ∈ for_in r -> get r k = get o k)
    /\ σ' !! obj = Some o
    /\ (forall l, l <> ret -> σ' !! l = σ !! l).
Proof.
  intros Hobj Hrep.
  assert (Hfresh : σ !! fresh (dom σ) = None) by apply not_elem_of_dom, is_fresh.
  eexists _, _, (omit_result o keys).
  split; [by rewrite (omit_spec _ _ _ _ Hobj), Hrep|]. split; [done|].
  split; [by rewrite lookup_insert_eq|].
  split; [apply omit_result_all_enumerable|].
  split; [apply omit_result_keys|]. split; [apply omit_result_keys|].
  split.
  - rewrite lookup_insert_ne; [done | congruence].
  - intros l Hl. by rewrite lookup_insert_ne.
Qed.

Lemma C10_omit_copies_and_leaves_obj_witness :
  request_store !! 0%nat = Some https_request
  /\ replaces_prototype https_request ["host"; "hostname"; "path"; "port"]
     = false
  /\ exists σ' ret r,
       omit request_store 0%nat ["host"; "hostname"; "path"; "port"]
       = Some (σ', ret)
       /\ σ' !! ret = Some r
       /\ "rejectUnauthorized" ∈ for_in r
       /\ get r "rejectUnauthorized" = VBool false
       /\ ("path" ∉ for_in r)
       /\ σ' !! 0%nat = Some https_request.
Proof.
  split; [reflexivity|]. split; [reflexivity|].
  destruct (C10_omit_copies_and_leaves_obj request_store 0%nat https_request
              ["host"; "hostname"; "path"; "port"] eq_refl eq_refl)
    as (σ' & ret & r & Homit & _ & Hret & _ & Hkeys & Hval & Hobj & _).
  assert (Hin : "rejectUnauthorized" ∈ for_in r).
  { apply Hkeys. split; [|split; [|discriminate]].
    - apply elem_of_for_in. eexists. split; reflexivity.
    - apply not_elem_of_cons; split; [discriminate|].
      apply not_elem_of_cons; split; [discriminate|].
      apply not_elem_of_cons; split; [discriminate|].
      apply not_elem_of_cons; split; [discriminate|].
      apply not_elem_of_nil. }
  exists σ', ret, r. split; [exact Homit|]. split; [exact Hret|].
  split; [exact Hin|]. split; [by rewrite (Hval _ Hin)|].
  split; [|exact Hobj].
  intros Hpath. apply Hkeys in Hpath as (_ & Hout & _). apply Hout.
  apply list_elem_of_further, list_elem_of_further, list_elem_of_here.
Defined.

(** ** The constructor *)

Lemma convert_truthy (url_parse : string -> Opts.t) (l : list rawOpt) :
  forall acc,
    Forall (fun r => rawOpt_truthy r = true) l ->
    convert url_parse l acc = OK (acc ++ map (options_of url_parse) l).
Proof.
  induction l as [|r rest IH]; intros acc Hall.
  - cbn. by rewrite app_nil_r.
  - inversion Hall as [|? ? Hr Hrest]; subst. cbn [convert]. rewrite Hr.
    cbn [negb]. destruct r; try discriminate;
      rewrite (IH _ Hrest); cbn [map options_of]; by rewrite <- app_assoc.
Qed.

Lemma convert_falsy (url_parse : string -> Opts.t) (l : list rawOpt) :
  forall acc,
    Exists (fun r => rawOpt_truthy r = false) l ->
    convert url_parse l acc = Throw (TypeError no_proxy_message).
Proof.
  induction l as [|r rest IH]; intros acc Hex.
  - inversion Hex.
  - cbn [convert]. destruct (rawOpt_truthy r) eqn:Hr; [|reflexivity].
    cbn [negb]. apply IH. inversion Hex; subst; [congruence | done].
Qed.

Lemma convert_OK_inv (url_parse : string -> Opts.t) (l : list rawOpt)
    (opts : list Opts.t) :
  convert url_parse l [] = OK opts ->
  Forall (fun r => rawOpt_truthy r = true) l
  /\ opts = map (options_of url_parse) l.
Proof.
  intros H.
  destruct (decide (Forall (fun r => rawOpt_truthy r = true) l)) as [Hall|Hnot].
  - split; [done|]. rewrite (convert_truthy _ _ [] Hall) in H.
    by injection H as <-.
  - apply not_Forall_Exists in Hnot; [|intros r; apply _].
    rewrite (convert_falsy url_parse l []) in H; [discriminate|].
    eapply Exists_impl; [exact Hnot|]. cbn. intros r Hr.
    by destruct (rawOpt_truthy r).
Qed.

Lemma map_result_OK_inv {A B} (f : A -> result B) (l : list A) (bs : list B) :
  map_result f l = OK bs -> Forall2 (fun a b => f a = OK b) l bs.
Proof.
  revert bs. induction l as [|a rest IH]; intros bs H.
  - injection H as <-. constructor.
  - cbn [map_result] in H. destruct (f a) as [b|e] eqn:Hb; [|discriminate].
    cbn [bind_result] in H.
    destruct (map_result f rest) as [bs'|e]; [|discriminate].
    injection H as <-. constructor; [exact Hb | by apply IH].
Qed.

Lemma new_SocksProxyAgent_OK_inv (url_parse : string -> Opts.t)
    (rawOpts : rawOpts) (agent : SocksProxyAgent) :
  new_SocksProxyAgent url_parse rawOpts = OK agent ->
  exists parsed,
    Forall2 (fun spec b => parseSocksProxy (options_of url_parse spec) = OK b)
      (rawOptsArray_of rawOpts) parsed
    /\ lookups agent = map fst parsed
    /\ proxies agent = map snd parsed.
Proof.
  unfold new_SocksProxyAgent. intros H.
  destruct (convert url_parse (rawOptsArray_of rawOpts) []) as [opts|e] eqn:Hc;
    [|discriminate].
  apply convert_OK_inv in Hc as [_ ->]. cbn [bind_result] in H.
  destruct (map_result parseSocksProxy _) as [parsed|e] eqn:Hm; [|discriminate].
  injection H as <-. exists parsed. split; [|done].
  apply map_result_OK_inv in Hm. by apply Forall2_fmap_l in Hm.
Qed.

Lemma map_result_succeeds {A B} (f : A -> result B) (l : list A) :
  Forall (fun a => exists b, f a = OK b) l -> exists bs, map_result f l = OK bs.
Proof.
  induction 1 as [|a rest [b Hb] _ [bs Hbs]].
  - by exists [].
  - exists (b :: bs). cbn [map_result]. by rewrite Hb, Hbs.
Qed.

(** The constructor returns an agent when every element is valid. *)
Lemma new_SocksProxyAgent_succeeds (url_parse : string -> Opts.t)
    (rawOpts : rawOpts) :
  Forall (valid_spec url_parse) (rawOptsArray_of rawOpts) ->
  exists agent, new_SocksProxyAgent url_parse rawOpts = OK agent.
Proof.
  intros Hvalid. unfold new_SocksProxyAgent.
  rewrite (convert_truthy url_parse _ []).
  2: { eapply Forall_impl; [exact Hvalid|]. by intros r [? _]. }
  cbn [bind_result app].
  destruct (map_result_succeeds parseSocksProxy
              (map (options_of url_parse) (rawOptsArray_of rawOpts)))
    as [parsed ->].
  - apply Forall_fmap. eapply Forall_impl; [exact Hvalid|].
    intros r (_ & Hh & Hp & Ht). cbn.
    destruct (parseSocksProxy_succeeds _ Hh Hp Ht) as (l & p & ->). eauto.
  - cbn. eauto.
Qed.

(** C8: without a specification, or with a falsy element (null, undefined,
    the empty string) alone or anywhere in the array, the constructor throws
    its own error in the conversion loop, before [parseSocksProxy] is
    applied to any element, and returns no agent. *)
Theorem C8_missing_spec_rejected (url_parse : string -> Opts.t)
    (rawOpts : rawOpts) :
  Exists (fun r => rawOpt_truthy r = false) (rawOptsArray_of rawOpts) ->
  convert url_parse (rawOptsArray_of rawOpts) []
  = Throw (TypeError no_proxy_message)
  /\ new_SocksProxyAgent url_parse rawOpts = Throw (TypeError no_proxy_message)
  /\ forall agent, new_SocksProxyAgent url_parse rawOpts <> OK agent.
Proof.
  intros Hex. pose proof (convert_falsy url_parse _ [] Hex) as Hc.
  unfold new_SocksProxyAgent. rewrite Hc. cbn. done.
Qed.

Lemma C8_missing_spec_rejected_witness :
  (Exists (fun r => rawOpt_truthy r = false)
     (rawOptsArray_of (Array [RawOptions Opts.empty; RawNull]))
   /\ parseSocksProxy Opts.empty = Throw (TypeError no_host_message)
   /\ new_SocksProxyAgent url_parse_sample (Array [RawOptions Opts.empty; RawNull])
      = Throw (TypeError no_proxy_message))
  /\ new_SocksProxyAgent url_parse_sample (Single RawUndefined)
     = Throw (TypeError no_proxy_message).
Proof.
  split.
  - assert (H : Exists (fun r => rawOpt_truthy r = false)
                  (rawOptsArray_of (Array [RawOptions Opts.empty; RawNull]))).
    { apply Exists_cons_tl, Exists_cons_hd. reflexivity. }
    split; [exact H|]. split; [reflexivity|].
    apply (C8_missing_spec_rejected url_parse_sample _ H).
  - apply (C8_missing_spec_rejected url_parse_sample (Single RawUndefined)).
    apply Exists_cons_hd. reflexivity.
Defined.

(** ** Running [callback] *)

Lemma run_bind {A B} (env : Env) (p : Prog A) (f : A -> Prog B) :
  run env (bind p f)
  = match run env p with
    | (trace, OK a) => let '(trace', r) := run env (f a) in (trace ++ trace', r)
    | (trace, Throw e) => (trace, Throw e)
    end.
Proof.
  induction p as [[a|e]|X ev k IH]; cbn [bind run].
  - by destruct (run env (f a)).
  - reflexivity.
  - destruct (handle env ev) as [x|e]; [|reflexivity].
    rewrite IH. destruct (run env (k x)) as [trace [a|e]]; [|reflexivity].
    by destruct (run env (f a)).
Qed.

(** The resolution stage looks the host up exactly when the chain has a
    hop, whatever the flags are. *)
Lemma run_resolve (env : Env) (this : SocksProxyAgent) (host : value) :
  run env (resolve this host)
  = match lookups this with
    | [] => ([], OK host)
    | _ :: _ =>
        match env_dns env host with
        | (Some err, _) => ([CDns host], Throw err)
        | (None, res) => ([CDns host], OK (VString res))
        end
    end.
Proof.
  unfold resolve. destruct (lookups this) as [|flag flags]; [reflexivity|].
  replace (0 <? Z.of_nat (List.length (flag :: flags))) with true
    by (symmetry; apply Z.ltb_lt; cbn [List.length]; lia).
  cbn. destruct (env_dns env host) as [[err|] res]; reflexivity.
Qed.

Lemma run_tunnel (env : Env) (this : SocksProxyAgent) (host port : value) :
  exists c answer,
    is_tunnel_call c = true
    /\ carries_chain this c
    /\ destination_of c = Some (host, port)
    /\ tunnel_answer env c = Some answer
    /\ run env (tunnel this host port) = ([c], answer).
Proof.
  unfold tunnel.
  set (chained := {| scc_proxies := proxies this;
                     scc_destination := (host, port);
                     scc_command := "connect" |}).
  destruct (proxies this) as [|p [|q rest]] eqn:Hp.
  - exists (CChain chained), (env_chain env chained). subst chained.
    cbn. rewrite Hp. repeat split; [done|]. by destruct (env_chain env _).
  - set (single := {| sco_proxy := p;
                      sco_destination := (host, port);
                      sco_command := "connect" |}).
    exists (CConnect single), (env_connect env single). subst single.
    cbn. rewrite Hp. repeat split. by destruct (env_connect env _).
  - exists (CChain chained), (env_chain env chained). subst chained.
    cbn. rewrite Hp. repeat split; [done|]. by destruct (env_chain env _).
Qed.

Lemma run_upgrade (env : Env) (opts : object) (host : value) (socket : Socket) :
  run env (upgrade opts host socket)
  = if truthy (get opts "secureEndpoint")
    then let o := tls_options opts socket (value_or (get opts "servername") host)
         in ([CTls o], env_tls env o)
    else ([], OK socket).
Proof.
  unfold upgrade. destruct (truthy (get opts "secureEndpoint")); [|reflexivity].
  cbn. by destruct (env_tls env _).
Qed.

Lemma tls_options_lookup (opts : object) (socket : Socket) (servername : value)
    (k : string) :
  tls_options opts socket servername !! k
  = if bool_decide (k = "servername") then Some (enumerable_property servername)
    else if bool_decide (k = "socket")
         then Some (enumerable_property (VSocket socket))
    else if bool_decide (k ∈ ["__proto__"; "host"; "hostname"; "path"; "port"])
         then None
    else spread opts !! k.
Proof.
  unfold tls_options, define_property. rewrite !lookup_insert.
  destruct (decide ("servername" = k)) as [<-|Hn1]; [done|].
  rewrite (bool_decide_false (k = "servername")) by congruence.
  destruct (decide ("socket" = k)) as [<-|Hn2]; [done|].
  rewrite (bool_decide_false (k = "socket")) by congruence.
  rewrite spread_lookup, omit_result_lookup.
  case_bool_decide; [done|].
  rewrite spread_lookup. destruct (opts !! k) as [p|]; [|done].
  by destruct (enumerable p).
Qed.

Lemma tls_options_get (opts : object) (socket : Socket) (servername : value) :
  get (tls_options opts socket servername) "socket" = VSocket socket
  /\ get (tls_options opts socket servername) "servername" = servername.
Proof. unfold get. by rewrite !tls_options_lookup. Qed.

(** Every run of [callback], by stage. *)
Lemma callback_cases (env : Env) (this : SocksProxyAgent) (opts : object) :
  (truthy (get opts "host") = false
   /\ run env (callback this opts) = ([], Throw (Error no_host_defined_message)))
  \/ (truthy (get opts "host") = true /\ lookups this <> []
      /\ exists err res,
           env_dns env (get opts "host") = (Some err, res)
           /\ run env (callback this opts) = ([CDns (get opts "host")], Throw err))
  \/ (truthy (get opts "host") = true
      /\ exists before host c answer,
           ((lookups this = [] /\ before = [] /\ host = get opts "host")
            \/ (lookups this <> [] /\ before = [CDns (get opts "host")]
                /\ exists res, env_dns env (get opts "host") = (None, res)
                               /\ host = VString res))
           /\ is_tunnel_call c = true
           /\ carries_chain this c
           /\ destination_of c = Some (host, get opts "port")
           /\ tunnel_answer env c = Some answer
           /\ run env (callback this opts)
              = match answer with
                | Throw e => (before ++ [c], Throw e)
                | OK socket =>
                    if truthy (get opts "secureEndpoint")
                    then
                      let o := tls_options opts socket
                                 (value_or (get opts "servername") host) in
                      (before ++ [c; CTls o], env_tls env o)
                    else (before ++ [c], OK socket)
                end).
Proof.
  unfold callback. destruct (truthy (get opts "host")) eqn:Hhost; cbn [negb].
  2: { left. done. }
  right. rewrite run_bind, run_resolve.
  assert (Hstage : forall before host,
    exists c answer,
      is_tunnel_call c = true /\ carries_chain this c
      /\ destination_of c = Some (host, get opts "port")
      /\ tunnel_answer env c = Some answer
      /\ (let '(trace', r) :=
            run env (bind (tunnel this host (get opts "port"))
                       (fun socket => upgrade opts host socket)) in
          (before ++ trace', r))
         = match answer with
           | Throw e => (before ++ [c], Throw e)
           | OK socket =>
               if truthy (get opts "secureEndpoint")
               then
                 let o := tls_options opts socket
                            (value_or (get opts "servername") host) in
                 (before ++ [c; CTls o], env_tls env o)
               else (before ++ [c], OK socket)
           end).
  { intros before host. rewrite run_bind.
    destruct (run_tunnel env this host (get opts "port"))
      as (c & answer & Hc & Hchain & Hdest & Hans & ->).
    exists c, answer. repeat split; try done.
    destruct answer as [socket|e]; [|done].
    rewrite run_upgrade. by destruct (truthy (get opts "secureEndpoint")). }
  destruct (lookups this) as [|flag flags] eqn:Hl.
  - right. split; [done|].
    destruct (Hstage [] (get opts "host")) as (c & answer & ? & ? & ? & ? & Hrun).
    exists [], (get opts "host"), c, answer.
    split; [by left|]. repeat split; try done.
  - destruct (env_dns env (get opts "host")) as [[err|] res] eqn:Hdns.
    + left. split; [done|]. split; [done|]. by exists err, res.
    + right. split; [done|].
      destruct (Hstage [CDns (get opts "host")] (VString res))
        as (c & answer & ? & ? & ? & ? & Hrun).
      exists [CDns (get opts "host")], (VString res), c, answer.
      split; [right; repeat split; try done; by exists res|].
      repeat split; try done.
Qed.

(** The three ways a run goes on once the tunnel call is answered: a
    socket and a secure endpoint, a socket and a plain one, a failure. *)
Ltac by_outcome answer opts :=
  destruct answer as [?socket|?e];
  [destruct (truthy (get opts "secureEndpoint"))|].

(** The calls of a run, whatever its outcome: at most one lookup, then at
    most one tunnel call, then at most one TLS call. *)
Lemma callback_trace_shape (env : Env) (this : SocksProxyAgent) (opts : object) :
  exists before after,
    (run env (callback this opts)).1 = before ++ after
    /\ (before = [] \/ (before = [CDns (get opts "host")] /\ lookups this <> []))
    /\ (after = []
        \/ exists c, is_tunnel_call c = true /\ carries_chain this c
             /\ (after = [c] \/ exists o, after = [c; CTls o])).
Proof.
  destruct (callback_cases env this opts)
    as [[_ ->] | [(_ & Hl & err & res & _ & ->)
       | (_ & before & host & c & answer & Hb & Hc & Hchain & _ & _ & ->)]].
  - exists [], []. cbn. auto.
  - exists [CDns (get opts "host")], []. cbn. auto.
  - assert (Hbefore : before = []
              \/ (before = [CDns (get opts "host")] /\ lookups this <> [])).
    { destruct Hb as [(_ & -> & _) | (Hl & -> & _)]; auto. }
    by_outcome answer opts.
    + exists before, [c; CTls (tls_options opts socket
                               (value_or (get opts "servername") host))].
      cbn. split; [done|]. split; [done|]. right. exists c. eauto 6.
    + exists before, [c]. cbn. split; [done|]. split; [done|]. right. eauto 6.
    + exists before, [c]. cbn. split; [done|]. split; [done|]. right. eauto 6.
Qed.

Lemma callback_trace_carries_chain (env : Env) (this : SocksProxyAgent)
    (opts : object) (c : call) :
  c ∈ (run env (callback this opts)).1 -> carries_chain this c.
Proof.
  destruct (callback_trace_shape env this opts)
    as (before & after & -> & Hb & Ha).
  rewrite elem_of_app. intros [Hin|Hin].
  - destruct Hb as [-> | [-> _]].
    + by apply elem_of_nil in Hin.
    + apply list_elem_of_singleton in Hin as ->. exact I.
  - destruct Ha as [-> | (c0 & _ & Hchain & [-> | [o ->]])].
    + by apply elem_of_nil in Hin.
    + by apply list_elem_of_singleton in Hin as ->.
    + apply elem_of_cons in Hin as [-> | Hin]; [done|].
      apply list_elem_of_singleton in Hin as ->. exact I.
Qed.

(** With a host and a resolver that answers, exactly one tunnel call. *)
Lemma callback_one_tunnel_call (env : Env) (this : SocksProxyAgent)
    (opts : object) :
  truthy (get opts "host") = true ->
  (env_dns env (get opts "host")).1 = None ->
  exists c,
    filter (fun c => is_tunnel_call c = true) (run env (callback this opts)).1
    = [c].
Proof.
  intros Hhost Hdns.
  destruct (callback_cases env this opts)
    as [[Hno _] | [(_ & _ & err & res & Herr & _)
       | (_ & before & host & c & answer & Hb & Hc & _ & _ & _ & ->)]].
  - congruence.
  - rewrite Herr in Hdns. discriminate.
  - exists c.
    assert (Hbefore : filter (fun c => is_tunnel_call c = true) before = []).
    { destruct Hb as [(_ & -> & _) | (_ & -> & _)]; reflexivity. }
    by_outcome answer opts;
      cbn [fst]; rewrite filter_app, Hbefore; cbn [app];
      rewrite filter_cons_True by done; reflexivity.
Qed.

(** ** Resolution of the destination *)

(** The lookup is made exactly when the chain has a hop. *)
Lemma callback_lookup_iff_chain_nonempty (env : Env) (this : SocksProxyAgent)
    (opts : object) :
  truthy (get opts "host") = true ->
  CDns (get opts "host") ∈ (run env (callback this opts)).1
  <-> lookups this <> [].
Proof.
  intros Hhost.
  destruct (callback_cases env this opts)
    as [[Hno _] | [(_ & Hl & err & res & _ & ->)
       | (_ & before & host & c & answer & Hb & Hc & _ & _ & _ & ->)]].
  - congruence.
  - cbn. split; [done|]. intros _. apply list_elem_of_singleton. done.
  - assert (Hshape : exists after,
              (match answer with
               | Throw e => (before ++ [c], Throw e)
               | OK socket =>
                   if truthy (get opts "secureEndpoint")
                   then
                     let o := tls_options opts socket
                                (value_or (get opts "servername") host) in
                     (before ++ [c; CTls o], env_tls env o)
                   else (before ++ [c], OK socket)
               end).1 = before ++ c :: after
              /\ Forall (fun c' => exists o, c' = CTls o) after).
    { by_outcome answer opts; cbn.
      - eexists. split; [done|]. repeat constructor. eauto.
      - exists []. split; [done|]. constructor.
      - exists []. split; [done|]. constructor. }
    destruct Hshape as (after & -> & Hafter).
    destruct Hb as [(Hl & -> & _) | (Hl & -> & _)].
    + split; [|done]. cbn. intros Hin.
      apply elem_of_cons in Hin as [<- | Hin]; [discriminate Hc|].
      rewrite Forall_forall in Hafter. apply Hafter in Hin as [o Ho].
      discriminate Ho.
    + split; [done|]. intros _. cbn. apply list_elem_of_here.
Qed.

(** A failed lookup ends the call: its error is thrown and no tunnel call
    is made. *)
Lemma callback_lookup_failure (env : Env) (this : SocksProxyAgent)
    (opts : object) (err : error) (res : string) :
  truthy (get opts "host") = true ->
  lookups this <> [] ->
  env_dns env (get opts "host") = (Some err, res) ->
  run env (callback this opts) = ([CDns (get opts "host")], Throw err).
Proof.
  intros Hhost Hl Hdns. unfold callback. rewrite Hhost. cbn [negb].
  rewrite run_bind, run_resolve.
  destruct (lookups this); [congruence|]. by rewrite Hdns.
Qed.

(** The address the lookup returns is the host the tunnel is asked for. *)
Lemma callback_resolved_host_used (env : Env) (this : SocksProxyAgent)
    (opts : object) (res : string) :
  truthy (get opts "host") = true ->
  lookups this <> [] ->
  env_dns env (get opts "host") = (None, res) ->
  exists c rest,
    (run env (callback this opts)).1 = CDns (get opts "host") :: c :: rest
    /\ destination_of c = Some (VString res, get opts "port").
Proof.
  intros Hhost Hl Hdns.
  destruct (callback_cases env this opts)
    as [[Hno _] | [(_ & _ & err & res' & Herr & _)
       | (_ & before & host & c & answer & Hb & _ & _ & Hdest & _ & ->)]].
  - congruence.
  - congruence.
  - destruct Hb as [(Hl' & _) | (_ & -> & res' & Hres & ->)]; [done|].
    assert (res' = res) as -> by congruence.
    exists c. by_outcome answer opts; cbn; eauto.
Qed.

(** C1, at the failing input: the agent built from a [socks5h:] proxy has
    the single resolution flag [false], and its [callback] still starts
    with a DNS lookup of the destination host. *)
Theorem C1_lookup_with_no_flag_set (env : Env) :
  new_SocksProxyAgent url_parse_sample (Single (RawOptions socks5h_plain))
  = OK socks5h_agent
  /\ lookups socks5h_agent = [false]
  /\ exists rest,
       (run env (callback socks5h_agent http_request)).1
       = CDns (VString "example.com") :: rest.
Proof.
  split; [reflexivity|]. split; [reflexivity|].
  assert (Hhost : get http_request "host" = VString "example.com")
    by reflexivity.
  destruct (callback_cases env socks5h_agent http_request)
    as [[Hno _] | [(_ & _ & err & res & _ & ->)
       | (_ & b & host & c & answer & Hb & _ & _ & _ & _ & ->)]].
  - rewrite Hhost in Hno. discriminate.
  - rewrite Hhost. by exists [].
  - destruct Hb as [(Hl & _) | (_ & -> & _)]; [discriminate|].
    rewrite Hhost.
    by_outcome answer http_request; cbn; eauto.
Qed.

(** ** The chain and the tunnel *)

Lemma parse_host_of_spec (opts : Opts.t) (host : string) :
  parse_host opts = Some host -> host_of_spec opts host.
Proof.
  unfold parse_host, opt_or. intros H. apply keep_truthy_Some in H as [H _].
  split.
  - intros h Hh Hne. rewrite Hh in H.
    destruct h; [done|]. cbn in H. congruence.
  - intros Hfalsy. by rewrite Hfalsy in H.
Qed.

Lemma parse_port_of_spec (opts : Opts.t) : port_of_spec opts (parse_port opts).
Proof.
  split; [|split].
  - intros n Hn H0 Hnan. apply parse_port_truthy; auto.
  - intros s Hs Hnum [Hpos Hsmall].
    destruct (parse_port_reads _ _ _ Hs (numeric_string_reads _ Hnum))
      as [Hread _].
    apply Hread; [lia|]. rewrite Z.abs_eq; lia.
  - intros H. apply parse_port_other; rewrite H; discriminate.
Qed.

(** C3: an array of N valid specifications, strings and structured
    objects alike, yields an agent whose chain has N descriptors, the i-th
    one parsed from the i-th specification, with the host of that
    specification ([hostname], or [host] without one) and its port (the
    number or the value of the numeric string given, 1080 without one);
    every tunnel call of [callback] carries this chain, as a single-hop
    connect against the only descriptor when the chain has exactly one, as
    a chained connect over the whole list in chain order otherwise; and
    with a host and a resolver that answers, exactly one tunnel call is
    made. *)
Theorem C3_chain_in_input_order (url_parse : string -> Opts.t)
    (specs : list rawOpt) :
  Forall (valid_spec url_parse) specs ->
  exists agent,
    new_SocksProxyAgent url_parse (Array specs) = OK agent
    /\ List.length (proxies agent) = List.length specs
    /\ (forall (i : nat) spec, specs !! i = Some spec ->
          exists flag p,
            lookups agent !! i = Some flag
            /\ proxies agent !! i = Some p
            /\ parseSocksProxy (options_of url_parse spec) = OK (flag, p)
            /\ host_of_spec (options_of url_parse spec) (Proxy.host p)
            /\ port_of_spec (options_of url_parse spec) (Proxy.port p))
    /\ (forall env opts c,
          c ∈ (run env (callback agent opts)).1 ->
          match c with
          | CConnect o =>
              proxies agent = [sco_proxy o] /\ sco_command o = "connect"
          | CChain o =>
              scc_proxies o = proxies agent
              /\ List.length (proxies agent) <> 1%nat
              /\ scc_command o = "connect"
          | CDns _ | CTls _ => True
          end)
    /\ (forall env opts,
          truthy (get opts "host") = true ->
          (env_dns env (get opts "host")).1 = None ->
          exists c,
            filter (fun c => is_tunnel_call c = true)
              (run env (callback agent opts)).1 = [c]).
Proof.
  intros Hvalid.
  destruct (new_SocksProxyAgent_succeeds url_parse (Array specs) Hvalid)
    as [agent Hnew].
  exists agent. split; [exact Hnew|].
  apply new_SocksProxyAgent_OK_inv in Hnew as (parsed & Hparsed & Hl & Hp).
  cbn [rawOptsArray_of] in Hparsed.
  split; [|split; [|split]].
  - rewrite Hp, length_map. symmetry. by eapply Forall2_length.
  - intros i spec Hi.
    destruct (Forall2_lookup_l _ _ _ _ _ Hparsed Hi) as ([flag p] & Hb & Hparse).
    exists flag, p. rewrite Hl, Hp, !list_lookup_fmap, Hb.
    split; [done|]. split; [done|]. split; [done|].
    apply parseSocksProxy_OK_inv in Hparse as (t0 & Hhost & Hport & _).
    split; [by apply parse_host_of_spec|].
    rewrite Hport. apply parse_port_of_spec.
  - intros env opts c Hc.
    apply callback_trace_carries_chain in Hc. by destruct c.
  - intros env opts. apply callback_one_tunnel_call.
Qed.

Lemma C3_chain_in_input_order_witness :
  Forall (valid_spec url_parse_sample) mixed_specs
  /\ exists agent,
       new_SocksProxyAgent url_parse_sample (Array mixed_specs) = OK agent
       /\ List.length (proxies agent) = 2%nat
       /\ (exists p0 p1,
             proxies agent = [p0; p1]
             /\ Proxy.host p0 = "127.0.0.1" /\ Proxy.port p0 = Int 9050
             /\ Proxy.host p1 = "127.0.0.1" /\ Proxy.port p1 = Int 1080)
       /\ exists c,
            filter (fun c => is_tunnel_call c = true)
              (run calm_env (callback agent http_request)).1 = [c].
Proof.
  assert (H : Forall (valid_spec url_parse_sample) mixed_specs).
  { repeat constructor. }
  split; [exact H|].
  destruct (C3_chain_in_input_order url_parse_sample mixed_specs H)
    as (agent & Hnew & Hlen & Hhops & _ & Hone).
  exists agent. split; [exact Hnew|]. split; [exact Hlen|].
  split; [|apply Hone; reflexivity].
  destruct (Hhops 0%nat _ eq_refl)
    as (f0 & p0 & _ & Hp0 & _ & [Hhost0 _] & (_ & Hport0 & _)).
  destruct (Hhops 1%nat _ eq_refl)
    as (f1 & p1 & _ & Hp1 & _ & [Hhost1 _] & (_ & _ & Hport1)).
  exists p0, p1. split; [|split; [|split; [|split]]].
  - destruct (proxies agent) as [|q0 [|q1 [|q2 rest]]]; try discriminate Hlen.
    cbn in Hp0, Hp1. congruence.
  - apply (Hhost0 "127.0.0.1"); [reflexivity | discriminate].
  - apply (Hport0 "9050"); [reflexivity | reflexivity |].
    vm_compute. split; [reflexivity | discriminate].
  - apply (Hhost1 "127.0.0.1"); [reflexivity | discriminate].
  - apply Hport1. reflexivity.
Defined.

(** ** TLS over the tunnel *)

(** C4, counterexample: an option of the request named [__proto__] is not
    among the options of [tls.connect], although it is none of [host],
    [hostname], [path] and [port]. *)
Lemma C4_proto_option_dropped :
  "__proto__" ∈ for_in proto_request
  /\ get proto_request "__proto__" = VNumber (Int 5)
  /\ ("__proto__" ∉ ["host"; "hostname"; "path"; "port"])
  /\ exists trace o,
       run calm_env (callback socks5h_agent proto_request) = (trace, OK 11%nat)
       /\ last trace = Some (CTls o)
       /\ o !! "__proto__" = None
       /\ get o "__proto__" = VUndefined.
Proof.
  split; [apply elem_of_for_in; eexists; split; reflexivity|].
  split; [reflexivity|]. split.
  { intros H. repeat (apply elem_of_cons in H as [H|H]; [discriminate H|]).
    by apply elem_of_nil in H. }
  assert (Hnone : forall socket servername,
            tls_options proto_request socket servername !! "__proto__" = None).
  { intros socket servername. by rewrite tls_options_lookup. }
  eexists _, _. split; [reflexivity|]. split; [reflexivity|].
  split; [apply Hnone|]. unfold get. by rewrite Hnone.
Qed.

(** C4, amended: when [callback] returns a socket, one tunnel call was
    answered with a socket, the tunneled one. With [secureEndpoint] set,
    the call that follows is [tls.connect], the socket returned is its
    result, and its options are: [socket], the tunneled socket;
    [servername], the override of the request when it is truthy,
    otherwise the host the tunnel was asked for; and, when the copy made
    by [omit] keeps its prototype, the enumerable options of the request
    other than [host], [hostname], [path], [port] and [__proto__]. No
    other call is made after the tunnel call. With
    [secureEndpoint] unset the tunneled socket is returned and the tunnel
    call is the last one. *)
Theorem C4_tls_over_tunneled_socket (env : Env) (this : SocksProxyAgent)
    (opts : object) (trace : list call) (s : Socket) :
  run env (callback this opts) = (trace, OK s) ->
  exists before c tunneled host,
    Forall (fun c' => is_tunnel_call c' = false) before
    /\ is_tunnel_call c = true
    /\ tunnel_answer env c = Some (OK tunneled)
    /\ destination_of c = Some (host, get opts "port")
    /\ (truthy (get opts "secureEndpoint") = true ->
          exists o,
            trace = before ++ [c; CTls o]
            /\ env_tls env o = OK s
            /\ get o "socket" = VSocket tunneled
            /\ (truthy (get opts "servername") = true ->
                  get o "servername" = get opts "servername")
            /\ (truthy (get opts "servername") = false ->
                  get o "servername" = host)
            /\ (replaces_prototype opts ["host"; "hostname"; "path"; "port"]
                = false ->
                forall k, k <> "socket" -> k <> "servername" ->
                  o !! k
                  = if bool_decide
                         (k ∈ ["__proto__"; "host"; "hostname"; "path"; "port"])
                    then None else spread opts !! k))
    /\ (truthy (get opts "secureEndpoint") = false ->
          trace = before ++ [c] /\ s = tunneled).
Proof.
  intros Hrun.
  destruct (callback_cases env this opts)
    as [[_ H] | [(_ & _ & err & res & _ & H)
       | (_ & before & host & c & answer & Hb & Hc & _ & Hdest & Hans & H)]];
    rewrite H in Hrun; try discriminate.
  assert (Hbefore : Forall (fun c' => is_tunnel_call c' = false) before).
  { destruct Hb as [(_ & -> & _) | (_ & -> & _)]; by repeat constructor. }
  destruct answer as [tunneled|e]; [|discriminate].
  exists before, c, tunneled, host.
  split; [done|]. split; [done|]. split; [done|]. split; [done|].
  destruct (truthy (get opts "secureEndpoint")); cbn zeta in Hrun;
    injection Hrun as <- Hs.
  - split; [|discriminate]. intros _. eexists. split; [reflexivity|].
    split; [done|].
    destruct (tls_options_get opts tunneled
                (value_or (get opts "servername") host)) as [Hsock Hname].
    split; [exact Hsock|]. rewrite Hname. unfold value_or.
    split; [by intros ->|]. split; [by intros ->|].
    intros _ k Hk1 Hk2. rewrite tls_options_lookup.
    by rewrite !bool_decide_false by done.
  - split; [discriminate|]. intros _. split; [done|]. congruence.
Qed.

Lemma last_two_inv {A} (before : list A) (c d x y z : A) :
  before ++ [c; d] = [x; y; z] -> before = [x] /\ c = y /\ d = z.
Proof.
  intros H.
  destruct before as [|a [|b [|e rest]]]; try discriminate H.
  - by injection H as -> -> ->.
  - cbn in H. injection H as _ _ _ H. by destruct rest.
Qed.

Lemma C4_tls_over_tunneled_socket_witness :
  (exists trace o tunneled,
     run calm_env (callback socks5h_agent https_request) = (trace, OK 11%nat)
     /\ last trace = Some (CTls o)
     /\ get o "socket" = VSocket tunneled
     /\ get https_request "servername" = VUndefined
     /\ get o "servername" = VString "93.184.216.34"
     /\ replaces_prototype https_request ["host"; "hostname"; "path"; "port"]
        = false
     /\ o !! "path" = None
     /\ o !! "rejectUnauthorized" = Some (enumerable_property (VBool false)))
  /\ (exists trace o,
        run calm_env (callback socks5h_agent named_request) = (trace, OK 11%nat)
        /\ last trace = Some (CTls o)
        /\ get o "servername" = VString "example.org").
Proof.
  split.
  - assert (E : exists o,
               run calm_env (callback socks5h_agent https_request)
               = ([CDns (VString "example.com");
                   CConnect {| sco_proxy := Proxy.make "127.0.0.1" (Int 1080) 5
                                              None None;
                               sco_destination :=
                                 (VString "93.184.216.34", VNumber (Int 443));
                               sco_command := "connect" |};
                   CTls o], OK 11%nat)) by (eexists; reflexivity).
    destruct E as [o' E].
    eexists. destruct (C4_tls_over_tunneled_socket _ _ _ _ _ E)
      as (before & c & tunneled & host & _ & _ & _ & Hdest & Hsecure & _).
    destruct (Hsecure eq_refl) as (o & Htrace & _ & Hsock & _ & Hname & Hrest).
    symmetry in Htrace. apply last_two_inv in Htrace as (-> & -> & [= <-]).
    injection Hdest as <-.
    exists o, tunneled. split; [exact E|].
    split; [reflexivity|]. split; [exact Hsock|]. split; [reflexivity|].
    split; [exact (Hname eq_refl)|]. split; [reflexivity|]. split.
    + rewrite (Hrest eq_refl "path") by discriminate. reflexivity.
    + rewrite (Hrest eq_refl "rejectUnauthorized") by discriminate.
      reflexivity.
  - assert (E : run calm_env (callback socks5h_agent named_request)
                = ((run calm_env (callback socks5h_agent named_request)).1,
                   OK 11%nat)) by reflexivity.
    eexists. destruct (C4_tls_over_tunneled_socket _ _ _ _ _ E)
      as (before & c & tunneled & host & _ & _ & _ & _ & Hsecure & _).
    destruct (Hsecure eq_refl) as (o & Htrace & _ & _ & Hname & _ & _).
    exists o. split; [exact E|]. split.
    + rewrite Htrace, (last_app before [c; CTls o]). reflexivity.
    + exact (Hname eq_refl).
Defined.

(** ** The chain over the life of the agent *)







(** What the SOCKS client does to the array it is handed is done to the
    chain of the agent. *)
Lemma shared_chain_reversed :
  proxies (connect reversing_client mixed_agent http_request).1
  = reverse (proxies mixed_agent)
  /\ (connect reversing_client mixed_agent http_request).1 <> mixed_agent.
Proof. split; [reflexivity | discriminate]. Qed.

(** An assignment to [this] in a method shows in the agent afterwards. *)
Lemma run_method_write (c : Client) (this this' : SocksProxyAgent)
    (socket : Socket) :
  (run_method c this (WriteThis this' (Finish (OK socket)))).1 = this'.
Proof. reflexivity. Qed.




(** * Further properties *)

(** ** When [parseSocksProxy] returns and what it throws *)

Lemma parse_host_has_host (opts : Opts.t) (h : string) :
  parse_host opts = Some h -> has_host opts = true.
Proof.
  unfold parse_host, has_host, opt_or, keep_truthy.
  destruct (opt_truthy (Opts.hostname opts)) eqn:E1; [done|].
  destruct (opt_truthy (Opts.host opts)) eqn:E2; [done | discriminate].
Qed.

Lemma parse_protocol_OK_accepted (opts : Opts.t) (l : bool) (t : Z) :
  parse_protocol opts = OK (l, t) -> accepted_protocol opts = true.
Proof.
  unfold parse_protocol, accepted_protocol.
  destruct (Opts.protocol opts) as [s|]; [|done].
  destruct (string_truthy s); [|done]. cbn [negb orb].
  unfold protocol_switch, socks_schemes. intros H.
  apply bool_decide_eq_true.
  repeat (case_bool_decide as E; [rewrite E; repeat constructor | clear E]).
  discriminate.
Qed.

Lemma parse_type_OK_valid (opts : Opts.t) (t0 t : Z) :
  parse_type opts t0 = OK t ->
  Opts.type opts = VUndefined \/ valid_type (Opts.type opts) = true.
Proof.
  unfold parse_type.
  destruct (Opts.type opts) as [| |b|[z| | |]|s|s|l]; try discriminate; [by left|].
  destruct z as [|[[[]|[]|]|[[]|[]|]|]|]; try discriminate; by right.
Qed.

(** X1: [parseSocksProxy] returns a descriptor exactly when a host is
    present, the protocol is absent, empty or a SOCKS scheme, and the type
    is absent, 4 or 5. *)
Theorem X1_parse_returns_iff_valid (opts : Opts.t) :
  (exists l p, parseSocksProxy opts = OK (l, p))
  <-> has_host opts = true
      /\ accepted_protocol opts = true
      /\ (Opts.type opts = VUndefined \/ valid_type (Opts.type opts) = true).
Proof.
  split.
  - intros (l & p & Hp).
    apply parseSocksProxy_OK_inv in Hp as (t0 & Hh & _ & Hproto & Htype & _).
    split; [by eapply parse_host_has_host|].
    split; [by eapply parse_protocol_OK_accepted|].
    by eapply parse_type_OK_valid.
  - intros (Hh & Hp & Ht). by apply parseSocksProxy_succeeds.
Qed.

Lemma parse_protocol_Throw_inv (opts : Opts.t) (e : error) :
  parse_protocol opts = Throw e ->
  exists s, Opts.protocol opts = Some s /\ s <> EmptyString
            /\ (s ∉ socks_schemes)
            /\ e = TypeError (bad_protocol_message s).
Proof.
  unfold parse_protocol.
  destruct (Opts.protocol opts) as [s|]; [|discriminate].
  destruct s as [|c r]; [discriminate|]. cbn [string_truthy].
  unfold protocol_switch, socks_schemes.
  repeat (case_bool_decide as E; [discriminate | revert E]).
  intros E5 E4 E3 E2 E1 [= <-]. exists (String c r).
  split; [done|]. split; [done|]. split; [|done].
  rewrite !not_elem_of_cons. repeat split; try done. apply not_elem_of_nil.
Qed.

Lemma parse_type_Throw_inv (opts : Opts.t) (t0 : Z) (e : error) :
  parse_type opts t0 = Throw e ->
  Opts.type opts <> VUndefined
  /\ valid_type (Opts.type opts) = false
  /\ e = TypeError (bad_type_message (Opts.type opts)).
Proof.
  unfold parse_type, valid_type.
  destruct (Opts.type opts) as [| |b|[z| | |]|s|s|l]; try discriminate;
    try (intros [= <-]; repeat split; done).
  destruct z as [|[[[]|[]|]|[[]|[]|]|]|]; try discriminate;
    intros [= <-]; repeat split; done.
Qed.

(** X2: whatever [parseSocksProxy] throws is the [TypeError] of the first
    check that fails, in the order host, protocol, type: a missing host
    hides a bad protocol and a bad type, and a bad protocol hides a bad
    type. *)
Theorem X2_parse_throws_first_failed_check (opts : Opts.t) (e : error) :
  parseSocksProxy opts = Throw e ->
  (has_host opts = false /\ e = TypeError no_host_message)
  \/ (has_host opts = true
      /\ exists s, Opts.protocol opts = Some s /\ s <> EmptyString
                   /\ (s ∉ socks_schemes)
                   /\ e = TypeError (bad_protocol_message s))
  \/ (has_host opts = true /\ accepted_protocol opts = true
      /\ Opts.type opts <> VUndefined /\ valid_type (Opts.type opts) = false
      /\ e = TypeError (bad_type_message (Opts.type opts))).
Proof.
  intros Hp. unfold parseSocksProxy in Hp.
  destruct (has_host opts) eqn:Hh.
  2: { left. rewrite (no_host_parse_host _ Hh) in Hp. by injection Hp as <-. }
  right. destruct (has_host_parse_host _ Hh) as [h Hhost].
  rewrite Hhost in Hp.
  destruct (parse_protocol opts) as [[l t0]|e'] eqn:Hproto; cbn in Hp.
  - right. split; [done|].
    split; [by eapply parse_protocol_OK_accepted|].
    destruct (parse_type opts t0) as [t|e'] eqn:Htype; cbn in Hp.
    + destruct (parse_credentials opts). discriminate.
    + injection Hp as <-. by eapply parse_type_Throw_inv.
  - left. split; [done|]. injection Hp as <-.
    by apply parse_protocol_Throw_inv.
Qed.

Lemma X2_parse_throws_first_failed_check_witness :
  parseSocksProxy http_scheme = Throw (TypeError (bad_protocol_message "http:"))
  /\ has_host http_scheme = true
  /\ exists s, Opts.protocol http_scheme = Some s
               /\ TypeError (bad_protocol_message "http:")
                  = TypeError (bad_protocol_message s).
Proof.
  assert (H : parseSocksProxy http_scheme
              = Throw (TypeError (bad_protocol_message "http:")))
    by reflexivity.
  split; [exact H|].
  destruct (X2_parse_throws_first_failed_check _ _ H)
    as [[Hno _] | [(Hh & s & Hs & _ & _ & He) | (_ & Hacc & _)]].
  - discriminate Hno.
  - split; [exact Hh|]. exists s. split; [exact Hs | exact He].
  - discriminate Hacc.
Defined.

(** ** Host and credentials *)

(** X3: [hostname] is preferred over [host]: a non-empty [hostname] is the
    host of the descriptor whatever [host] is, and [host] is used only when
    [hostname] is absent or empty. *)
Theorem X3_hostname_preferred (opts : Opts.t) (l : bool) (p : Proxy.t) :
  parseSocksProxy opts = OK (l, p) ->
  (forall h, Opts.hostname opts = Some h -> h <> EmptyString ->
     Proxy.host p = h)
  /\ (opt_truthy (Opts.hostname opts) = false ->
        Opts.host opts = Some (Proxy.host p)).
Proof.
  intros Hp. apply parseSocksProxy_OK_inv in Hp as (_ & Hh & _).
  apply keep_truthy_Some in Hh as [Hh _]. unfold opt_or in Hh. split.
  - intros h Hname Hne. rewrite Hname in Hh. destruct h; [done|].
    cbn in Hh. congruence.
  - intros Hname. by rewrite Hname in Hh.
Qed.

Lemma X3_hostname_preferred_witness :
  Opts.host socks_9050 = Some "127.0.0.1:9050"
  /\ exists l p, parseSocksProxy socks_9050 = OK (l, p)
                 /\ Proxy.host p = "127.0.0.1".
Proof.
  split; [reflexivity|].
  destruct (parseSocksProxy socks_9050) as [[l p]|e] eqn:E;
    [|vm_compute in E; discriminate].
  exists l, p. split; [reflexivity|].
  destruct (X3_hostname_preferred socks_9050 l p E) as [H _].
  apply H; [reflexivity | discriminate].
Defined.

Lemma keep_truthy_nonempty (o : option string) (s : string) :
  keep_truthy o = Some s -> s <> EmptyString.
Proof. intros H. apply keep_truthy_Some in H. tauto. Qed.

(** X4: a descriptor never carries an empty credential: [userId] and
    [password] are defined only with a non-empty string. *)
Theorem X4_credentials_never_empty (opts : Opts.t) (l : bool) (p : Proxy.t) :
  parseSocksProxy opts = OK (l, p) ->
  Proxy.userId p <> Some EmptyString /\ Proxy.password p <> Some EmptyString.
Proof.
  intros Hp. apply parseSocksProxy_OK_inv in Hp as (_ & _ & _ & _ & _ & Hu & Hw).
  split; intros H.
  - rewrite Hu in H. by apply keep_truthy_nonempty in H.
  - rewrite Hw in H. by apply keep_truthy_nonempty in H.
Qed.

Lemma X4_credentials_never_empty_witness :
  exists l p, parseSocksProxy separate_credentials = OK (l, p)
    /\ Proxy.userId p <> Some EmptyString
    /\ Proxy.password p <> Some EmptyString.
Proof.
  destruct (parseSocksProxy separate_credentials) as [[l p]|e] eqn:E;
    [|vm_compute in E; discriminate].
  exists l, p. split; [reflexivity|].
  exact (X4_credentials_never_empty _ l p E).
Defined.

(** X5: with a non-empty [auth], the separately supplied [userId],
    [username] and [password] have no effect on the result. *)
Theorem X5_auth_hides_separate_fields (opts : Opts.t)
    (userId username password : option string) :
  opt_truthy (Opts.auth opts) = true ->
  parseSocksProxy (with_credentials opts userId username password)
  = parseSocksProxy opts.
Proof.
  intros Ha. unfold parseSocksProxy.
  change (parse_host (with_credentials opts userId username password))
    with (parse_host opts).
  change (parse_port (with_credentials opts userId username password))
    with (parse_port opts).
  change (parse_protocol (with_credentials opts userId username password))
    with (parse_protocol opts).
  assert (Hc : parse_credentials (with_credentials opts userId username password)
               = parse_credentials opts).
  { unfold parse_credentials. cbn [with_credentials Opts.auth].
    destruct (Opts.auth opts) as [a|]; [|discriminate].
    cbn in Ha. by rewrite Ha. }
  rewrite Hc. reflexivity.
Qed.

Lemma X5_auth_hides_separate_fields_witness :
  opt_truthy (Opts.auth auth_one_colon) = true
  /\ parseSocksProxy
       (with_credentials auth_one_colon None (Some "x") (Some "y"))
     = parseSocksProxy auth_one_colon.
Proof.
  split; [reflexivity|].
  apply (X5_auth_hides_separate_fields auth_one_colon). reflexivity.
Defined.

(** X6: an [auth] without a colon is the userId, and the descriptor has no
    password, even when a [password] field is supplied. *)
Theorem X6_auth_without_colon (opts : Opts.t) (a : string) (l : bool)
    (p : Proxy.t) :
  parseSocksProxy opts = OK (l, p) ->
  Opts.auth opts = Some a -> a <> EmptyString -> no_colon a = true ->
  Proxy.userId p = Some a /\ Proxy.password p = None.
Proof.
  intros Hp Ha Hne Hcolon.
  apply parseSocksProxy_OK_inv in Hp as (_ & _ & _ & _ & _ & Hu & Hw).
  rewrite (parse_credentials_with_auth _ _ Ha Hne) in Hu, Hw.
  rewrite (split_no_colon _ Hcolon) in Hu, Hw. cbn in Hu, Hw.
  split; [|done]. rewrite Hu. by destruct a.
Qed.

Lemma X6_auth_without_colon_witness :
  Opts.password auth_no_colon = Some "secret"
  /\ exists l p, parseSocksProxy auth_no_colon = OK (l, p)
       /\ Proxy.userId p = Some "user" /\ Proxy.password p = None.
Proof.
  split; [reflexivity|].
  destruct (parseSocksProxy auth_no_colon) as [[l p]|e] eqn:E;
    [|vm_compute in E; discriminate].
  exists l, p. split; [reflexivity|].
  apply (X6_auth_without_colon auth_no_colon "user" l p E);
    [reflexivity | discriminate | reflexivity].
Defined.

(** X7: an [auth] of the form [user:pass], with one colon and both parts
    non-empty, gives exactly that userId and that password. *)
Theorem X7_auth_with_one_colon (opts : Opts.t) (user pass : string) (l : bool)
    (p : Proxy.t) :
  parseSocksProxy opts = OK (l, p) ->
  Opts.auth opts = Some (user +:+ String ":" pass) ->
  no_colon user = true -> no_colon pass = true ->
  user <> EmptyString -> pass <> EmptyString ->
  Proxy.userId p = Some user /\ Proxy.password p = Some pass.
Proof.
  intros Hp Ha Hu Hw Hune Hwne.
  apply parseSocksProxy_OK_inv in Hp as (_ & _ & _ & _ & _ & Hpu & Hpw).
  assert (Hne : user +:+ String ":" pass <> EmptyString)
    by (by destruct user).
  rewrite (parse_credentials_with_auth _ _ Ha Hne) in Hpu, Hpw.
  rewrite (split_one_colon _ _ Hu Hw) in Hpu, Hpw. cbn in Hpu, Hpw.
  rewrite Hpu, Hpw. by destruct user, pass.
Qed.

Lemma X7_auth_with_one_colon_witness :
  exists l p, parseSocksProxy auth_one_colon = OK (l, p)
    /\ Proxy.userId p = Some "user" /\ Proxy.password p = Some "pass".
Proof.
  destruct (parseSocksProxy auth_one_colon) as [[l p]|e] eqn:E;
    [|vm_compute in E; discriminate].
  exists l, p. split; [reflexivity|].
  apply (X7_auth_with_one_colon auth_one_colon "user" "pass" l p E);
    try reflexivity; discriminate.
Defined.

(** X8: without [auth] (absent or empty), the userId of the descriptor is
    [userId] if non-empty, otherwise [username] if non-empty, and its
    password is [password] if non-empty. *)
Theorem X8_credentials_without_auth (opts : Opts.t) (l : bool) (p : Proxy.t) :
  parseSocksProxy opts = OK (l, p) ->
  opt_truthy (Opts.auth opts) = false ->
  (forall u, Opts.userId opts = Some u -> u <> EmptyString ->
     Proxy.userId p = Some u)
  /\ (opt_truthy (Opts.userId opts) = false ->
        Proxy.userId p = keep_truthy (Opts.username opts))
  /\ Proxy.password p = keep_truthy (Opts.password opts).
Proof.
  intros Hp Ha.
  apply parseSocksProxy_OK_inv in Hp as (_ & _ & _ & _ & _ & Hu & Hw).
  rewrite (parse_credentials_without_auth _ Ha) in Hu, Hw. cbn in Hu, Hw.
  split; [|split; [|done]].
  - intros u Hid Hne. rewrite Hu, Hid. unfold opt_or. by destruct u.
  - intros Hid. rewrite Hu. unfold opt_or. by rewrite Hid.
Qed.

Lemma X8_credentials_without_auth_witness :
  opt_truthy (Opts.auth separate_credentials) = false
  /\ exists l p, parseSocksProxy separate_credentials = OK (l, p)
       /\ Proxy.userId p = Some "name" /\ Proxy.password p = Some "secret".
Proof.
  split; [reflexivity|].
  destruct (parseSocksProxy separate_credentials) as [[l p]|e] eqn:E;
    [|vm_compute in E; discriminate].
  exists l, p. split; [reflexivity|].
  destruct (X8_credentials_without_auth _ l p E eq_refl) as (_ & Hu & Hw).
  split; [exact (Hu eq_refl) | exact Hw].
Defined.

(** ** A port given as a string *)

(** X9: a port given as a string is read from its leading decimal digits,
    and what follows them is ignored; a minus sign in front gives the
    negative port. The value read is taken up to 2^53, the range in which
    every integer is a number. *)
Theorem X9_port_string_leading_digits (opts : Opts.t) (ds rest : string)
    (l : bool) (p : Proxy.t) :
  parseSocksProxy opts = OK (l, p) ->
  numeric_string ds = true -> no_leading_digit rest = true ->
  0 < decimal_value ds <= 2 ^ 53 ->
  (Opts.port opts = VString (ds +:+ rest) ->
     Proxy.port p = Int (decimal_value ds))
  /\ (Opts.port opts = VString (String "-" (ds +:+ rest)) ->
        Proxy.port p = Int (- decimal_value ds)).
Proof.
  intros Hp Hds Hrest Hv.
  apply parseSocksProxy_OK_inv in Hp as (_ & _ & -> & _).
  split; intros Hport.
  - apply parse_port_truthy; [right; eexists; split; [exact Hport|] | |].
    + rewrite (parseInt_digits_then_other _ _ Hds Hrest).
      apply to_double_small. lia.
    + intros [= E]. lia.
    + discriminate.
  - apply parse_port_truthy; [right; eexists; split; [exact Hport|] | |].
    + rewrite (parseInt_minus_digits _ _ Hds Hrest).
      apply to_double_small. lia.
    + intros [= E]. lia.
    + discriminate.
Qed.

Lemma X9_port_string_leading_digits_witness :
  Opts.port port_with_path = VString ("8080" +:+ "/path")
  /\ exists l p, parseSocksProxy port_with_path = OK (l, p)
       /\ Proxy.port p = Int 8080.
Proof.
  split; [reflexivity|].
  destruct (parseSocksProxy port_with_path) as [[l p]|e] eqn:E;
    [|vm_compute in E; discriminate].
  exists l, p. split; [reflexivity|].
  destruct (X9_port_string_leading_digits port_with_path "8080" "/path" l p E)
    as [H _];
    [reflexivity | reflexivity
    | vm_compute; split; [reflexivity | discriminate] |].
  exact (H eq_refl).
Defined.

(** ** More on the constructor *)

Lemma parseSocksProxy_OK_valid (opts : Opts.t) (b : bool * Proxy.t) :
  parseSocksProxy opts = OK b ->
  has_host opts = true
  /\ accepted_protocol opts = true
  /\ (Opts.type opts = VUndefined \/ valid_type (Opts.type opts) = true).
Proof.
  destruct b as [l p]. intros Hp.
  apply parseSocksProxy_OK_inv in Hp as (t0 & Hh & _ & Hproto & Htype & _).
  split; [by eapply parse_host_has_host|].
  split; [by eapply parse_protocol_OK_accepted|].
  by eapply parse_type_OK_valid.
Qed.

Lemma map_result_first_failure {A B} (f : A -> result B)
    (good : list A) (bad : A) (rest : list A) (e : error) :
  Forall (fun a => exists b, f a = OK b) good ->
  f bad = Throw e ->
  map_result f (good ++ bad :: rest) = Throw e.
Proof.
  intros Hgood Hbad. induction Hgood as [|a good [b Hb] _ IH].
  - cbn. by rewrite Hbad.
  - cbn [app map_result]. by rewrite Hb, IH.
Qed.

(** X10: the resolution flags of an agent are those of the schemes of its
    specifications, one per specification and in the same order; neither
    the explicit type nor any other field changes them. *)
Theorem X10_flags_follow_schemes (url_parse : string -> Opts.t)
    (rawOpts : rawOpts) (agent : SocksProxyAgent) :
  new_SocksProxyAgent url_parse rawOpts = OK agent ->
  lookups agent
  = map (fun r => resolving_scheme (Opts.protocol (options_of url_parse r)))
      (rawOptsArray_of rawOpts).
Proof.
  intros Hnew.
  apply new_SocksProxyAgent_OK_inv in Hnew as (parsed & Hparsed & -> & _).
  induction Hparsed as [|r [l p] specs parsed Hr _ IH]; [reflexivity|].
  cbn [map fst]. f_equal; [|exact IH].
  apply parseSocksProxy_OK_inv in Hr as (t0 & _ & _ & Hproto & _).
  by eapply parse_protocol_flag.
Qed.

Lemma X10_flags_follow_schemes_witness :
  new_SocksProxyAgent url_parse_sample (Array mixed_specs) = OK mixed_agent
  /\ lookups mixed_agent = [false; true].
Proof.
  assert (H : new_SocksProxyAgent url_parse_sample (Array mixed_specs)
              = OK mixed_agent) by reflexivity.
  split; [exact H|].
  rewrite (X10_flags_follow_schemes _ _ _ H). reflexivity.
Defined.

(** X11: when no element is falsy, the constructor throws the error of the
    first specification, in array order, that [parseSocksProxy] rejects;
    what comes after it is not looked at. *)
Theorem X11_first_rejected_spec (url_parse : string -> Opts.t)
    (good : list rawOpt) (bad : rawOpt) (rest : list rawOpt) (e : error) :
  Forall (fun r => rawOpt_truthy r = true) (good ++ bad :: rest) ->
  Forall (fun r => exists b, parseSocksProxy (options_of url_parse r) = OK b)
    good ->
  parseSocksProxy (options_of url_parse bad) = Throw e ->
  new_SocksProxyAgent url_parse (Array (good ++ bad :: rest)) = Throw e.
Proof.
  intros Htruthy Hgood Hbad. unfold new_SocksProxyAgent.
  cbn [rawOptsArray_of]. rewrite (convert_truthy _ _ [] Htruthy).
  cbn [bind_result app]. rewrite map_app. cbn [map].
  rewrite (map_result_first_failure parseSocksProxy _ _ _ e); [done | | done].
  by apply Forall_fmap.
Qed.

Lemma X11_first_rejected_spec_witness :
  new_SocksProxyAgent url_parse_sample
    (Array ([RawOptions socks4_plain]
            ++ RawOptions http_scheme :: [RawOptions Opts.empty]))
  = Throw (TypeError (bad_protocol_message "http:")).
Proof.
  apply (X11_first_rejected_spec url_parse_sample).
  - repeat constructor.
  - repeat constructor. eexists. reflexivity.
  - reflexivity.
Defined.

(** X12: the constructor returns an agent exactly when every element of
    its argument is a valid specification; the empty array qualifies. *)
Theorem X12_agent_iff_all_valid (url_parse : string -> Opts.t)
    (rawOpts : rawOpts) :
  (exists agent, new_SocksProxyAgent url_parse rawOpts = OK agent)
  <-> Forall (valid_spec url_parse) (rawOptsArray_of rawOpts).
Proof.
  split; [|apply new_SocksProxyAgent_succeeds].
  intros [agent Hnew].
  assert (Htruthy : Forall (fun r => rawOpt_truthy r = true)
                      (rawOptsArray_of rawOpts)).
  { unfold new_SocksProxyAgent in Hnew.
    destruct (convert url_parse (rawOptsArray_of rawOpts) []) as [opts|e] eqn:Hc;
      [|discriminate].
    by apply convert_OK_inv in Hc as [? _]. }
  apply new_SocksProxyAgent_OK_inv in Hnew as (parsed & Hparsed & _).
  revert Htruthy.
  induction Hparsed as [|r b specs parsed Hr _ IH]; [constructor|].
  intros Htruthy. inversion Htruthy as [|? ? Hr' Hrest]; subst.
  constructor; [|by apply IH].
  split; [done|]. by eapply parseSocksProxy_OK_valid.
Qed.

(** ** More on [callback] *)

(** X13: [callback] makes no call at all exactly when the request has no
    host: it then throws its own error before any lookup, tunnel or TLS
    call, whatever the chain; with a host, at least one call is made. *)
Theorem X13_missing_host_no_call (env : Env) (this : SocksProxyAgent)
    (opts : object) :
  ((run env (callback this opts)).1 = []
   <-> truthy (get opts "host") = false)
  /\ (truthy (get opts "host") = false ->
        (run env (callback this opts)).2
        = Throw (Error no_host_defined_message)).
Proof.
  destruct (callback_cases env this opts)
    as [[Hno ->] | [(Hhost & _ & err & res & _ & ->)
       | (Hhost & before & host & c & answer & _ & _ & _ & _ & _ & ->)]].
  - done.
  - cbn. rewrite Hhost. split; [split|]; discriminate.
  - rewrite Hhost. split; [split|]; try discriminate.
    by_outcome answer opts; cbn; intros H; by apply app_eq_nil in H as [_ ?].
Qed.

Lemma X13_missing_host_no_call_witness :
  truthy (get hostless_request "host") = false
  /\ run calm_env (callback mixed_agent hostless_request)
     = ([], Throw (Error no_host_defined_message)).
Proof.
  split; [reflexivity|].
  destruct (X13_missing_host_no_call calm_env mixed_agent hostless_request)
    as [Htrace Hresult].
  destruct (run calm_env (callback mixed_agent hostless_request))
    as [trace r]. cbn in *.
  rewrite (proj2 Htrace eq_refl), (Hresult eq_refl). reflexivity.
Defined.

(** X14: when the lookup fails, its error is what [callback] throws and the
    lookup is the only call made: the SOCKS client and TLS are not
    reached. *)
Theorem X14_lookup_failure_stops (env : Env) (this : SocksProxyAgent)
    (opts : object) (err : error) (res : string) :
  truthy (get opts "host") = true ->
  lookups this <> [] ->
  env_dns env (get opts "host") = (Some err, res) ->
  run env (callback this opts) = ([CDns (get opts "host")], Throw err).
Proof. apply callback_lookup_failure. Qed.

Lemma X14_lookup_failure_stops_witness :
  truthy (get https_request "host") = true
  /\ lookups mixed_agent <> []
  /\ run no_dns_env (callback mixed_agent https_request)
     = ([CDns (VString "example.com")], Throw (Rejection "ENOTFOUND")).
Proof.
  split; [reflexivity|]. split; [discriminate|].
  apply (X14_lookup_failure_stops no_dns_env mixed_agent https_request
           (Rejection "ENOTFOUND") EmptyString);
    [reflexivity | discriminate | reflexivity].
Defined.

(** X15: with a non-empty chain, a call that returns a socket looked the
    host up first, asked the tunnel for the address found, and, for a
    secure endpoint without a [servername] of its own, gave that address,
    not the host name of the request, as the TLS server name. *)
Theorem X15_resolved_address_used (env : Env) (this : SocksProxyAgent)
    (opts : object) (trace : list call) (s : Socket) :
  run env (callback this opts) = (trace, OK s) ->
  lookups this <> [] ->
  exists res c,
    env_dns env (get opts "host") = (None, res)
    /\ destination_of c = Some (VString res, get opts "port")
    /\ (truthy (get opts "secureEndpoint") = false ->
          trace = [CDns (get opts "host"); c])
    /\ (truthy (get opts "secureEndpoint") = true ->
          exists o,
            trace = [CDns (get opts "host"); c; CTls o]
            /\ (truthy (get opts "servername") = false ->
                  get o "servername" = VString res)).
Proof.
  intros Hrun Hl.
  destruct (callback_cases env this opts)
    as [[_ H] | [(_ & _ & err & res & _ & H)
       | (_ & before & host & c & answer & Hb & _ & _ & Hdest & _ & H)]];
    rewrite H in Hrun; try discriminate.
  destruct Hb as [(Hl' & _) | (_ & -> & res & Hdns & ->)]; [done|].
  exists res, c. split; [done|]. split; [done|].
  destruct answer as [socket|e]; [|discriminate].
  destruct (truthy (get opts "secureEndpoint")); cbn zeta in Hrun;
    injection Hrun as <- _.
  - split; [discriminate|]. intros _. eexists. split; [reflexivity|].
    intros Hname. unfold get at 1. rewrite tls_options_lookup.
    cbn. unfold value_or. by rewrite Hname.
  - split; [done | discriminate].
Qed.

Lemma X15_resolved_address_used_witness :
  lookups socks5h_agent <> []
  /\ exists trace o,
       run calm_env (callback socks5h_agent https_request) = (trace, OK 11%nat)
       /\ last trace = Some (CTls o)
       /\ get o "servername" = VString "93.184.216.34".
Proof.
  split; [discriminate|].
  assert (E : run calm_env (callback socks5h_agent https_request)
              = ((run calm_env (callback socks5h_agent https_request)).1,
                 OK 11%nat)) by (vm_compute; reflexivity).
  destruct (X15_resolved_address_used _ _ _ _ _ E)
    as (res & c & Hdns & _ & _ & Hsecure); [discriminate|].
  destruct (Hsecure eq_refl) as (o & Htrace & Hname).
  eexists _, o. split; [exact E|]. split; [by rewrite Htrace|].
  rewrite (Hname eq_refl). cbn in Hdns. congruence.
Defined.

(** X16: when the SOCKS client rejects the tunnel call, [callback] throws
    that rejection, the tunnel call is the last call made, and
    [tls.connect] is never called. *)
Theorem X16_tunnel_failure_stops (env : Env) (this : SocksProxyAgent)
    (opts : object) (c : call) (e : error) :
  c ∈ (run env (callback this opts)).1 ->
  tunnel_answer env c = Some (Throw e) ->
  (run env (callback this opts)).2 = Throw e
  /\ last (run env (callback this opts)).1 = Some c
  /\ Forall (fun c' => is_tls_call c' = false) (run env (callback this opts)).1.
Proof.
  intros Hin Hans.
  destruct (callback_cases env this opts)
    as [[_ H] | [(_ & _ & err & res & _ & H)
       | (_ & before & host & c0 & answer & Hb & Hc0 & _ & _ & Hans0 & H)]];
    rewrite H in *; cbn [fst snd] in *.
  - by apply elem_of_nil in Hin.
  - apply list_elem_of_singleton in Hin as ->. discriminate Hans.
  - assert (Hbefore : forall c', c' ∈ before -> exists h, c' = CDns h).
    { destruct Hb as [(_ & -> & _) | (_ & -> & _)]; intros c' Hc'.
      - by apply elem_of_nil in Hc'.
      - apply list_elem_of_singleton in Hc' as ->. eauto. }
    assert (Hc : c = c0).
    { destruct answer as [socket|e0];
        [destruct (truthy (get opts "secureEndpoint"))|]; cbn [fst] in Hin;
        apply elem_of_app in Hin as [Hin|Hin];
        try (apply Hbefore in Hin as [h ->]; discriminate Hans);
        repeat (apply elem_of_cons in Hin as [Hin|Hin]; [subst c|]);
        try done; try discriminate Hans; by apply elem_of_nil in Hin. }
    subst c0. rewrite Hans in Hans0. injection Hans0 as <-. cbn [fst snd].
    split; [done|]. split; [by rewrite last_snoc|].
    apply Forall_app. split.
    + apply Forall_forall. intros c' Hc'. by apply Hbefore in Hc' as [h ->].
    + constructor; [|constructor]. by destruct c.
Qed.

Lemma X16_tunnel_failure_stops_witness :
  exists c,
    c ∈ (run no_socks_env (callback mixed_agent https_request)).1
    /\ tunnel_answer no_socks_env c = Some (Throw (Rejection "ECONNREFUSED"))
    /\ (run no_socks_env (callback mixed_agent https_request)).2
       = Throw (Rejection "ECONNREFUSED").
Proof.
  set (c := CChain {| scc_proxies := proxies mixed_agent;
                      scc_destination :=
                        (VString "93.184.216.34", VNumber (Int 443));
                      scc_command := "connect" |}).
  assert (Hin : c ∈ (run no_socks_env (callback mixed_agent https_request)).1).
  { vm_compute. apply list_elem_of_further, list_elem_of_here. }
  exists c. split; [exact Hin|]. split; [reflexivity|].
  apply (X16_tunnel_failure_stops no_socks_env mixed_agent https_request c
           (Rejection "ECONNREFUSED") Hin eq_refl).
Defined.

(** X17: one call of [callback] makes at most one DNS lookup (never one per
    hop), then at most one tunnel call (no retry), then at most one TLS
    call, in this order, and no TLS call without a tunnel call. *)
Theorem X17_calls_of_one_request (env : Env) (this : SocksProxyAgent)
    (opts : object) :
  exists dns tun tls,
    (run env (callback this opts)).1 = dns ++ tun ++ tls
    /\ (List.length dns <= 1 /\ List.length tun <= 1 /\ List.length tls <= 1)%nat
    /\ Forall (fun c => is_dns_call c = true) dns
    /\ Forall (fun c => is_tunnel_call c = true) tun
    /\ Forall (fun c => is_tls_call c = true) tls
    /\ (tun = [] -> tls = []).
Proof.
  destruct (callback_trace_shape env this opts)
    as (before & after & -> & Hb & Ha).
  exists before.
  assert (Hdns : (List.length before <= 1)%nat
                 /\ Forall (fun c => is_dns_call c = true) before).
  { destruct Hb as [-> | [-> _]]; cbn; split; try lia; by repeat constructor. }
  destruct Hdns as [Hlen Hdns].
  destruct Ha as [-> | (c & Hc & _ & [-> | [o ->]])].
  - exists [], []. cbn. repeat split; try lia; try done; constructor.
  - exists [c], []. cbn. repeat split; try lia; try done; by repeat constructor.
  - exists [c], [CTls o]. cbn.
    repeat split; try lia; try done; by repeat constructor.
Qed.

(** X18: the agent built from the empty array makes no DNS lookup for a
    request with a host: its first call is a chained connect over no proxy
    at all, asked for the host and the port of the request as they are;
    nothing but a TLS call follows it, and when the SOCKS client refuses
    it, [callback] throws that error and has made no other call. *)
Theorem X18_empty_chain_request (url_parse : string -> Opts.t)
    (agent : SocksProxyAgent) (env : Env) (opts : object) :
  new_SocksProxyAgent url_parse (Array []) = OK agent ->
  truthy (get opts "host") = true ->
  (exists rest,
     (run env (callback agent opts)).1 = CChain (empty_chain_call opts) :: rest
     /\ Forall (fun c => is_tls_call c = true) rest)
  /\ Forall (fun c => is_dns_call c = false) (run env (callback agent opts)).1
  /\ (forall e, env_chain env (empty_chain_call opts) = Throw e ->
        run env (callback agent opts)
        = ([CChain (empty_chain_call opts)], Throw e)).
Proof.
  intros Hnew Hhost. cbn in Hnew. injection Hnew as <-.
  unfold callback. rewrite Hhost. cbn [negb].
  rewrite run_bind, run_resolve. cbn [lookups]. rewrite run_bind.
  unfold tunnel. cbn [proxies run await handle call_of].
  fold (empty_chain_call opts).
  destruct (env_chain env (empty_chain_call opts)) as [socket|e].
  - cbn [ret run app]. rewrite run_upgrade.
    destruct (truthy (get opts "secureEndpoint")); cbn.
    + split; [eexists; split; [reflexivity|]; by repeat constructor|].
      split; [by repeat constructor | discriminate].
    + split; [exists []; split; [reflexivity | constructor]|].
      split; [by repeat constructor | discriminate].
  - cbn. split; [exists []; split; [reflexivity | constructor]|].
    split; [by repeat constructor|]. by intros ? [= <-].
Qed.

Lemma X18_empty_chain_request_witness :
  new_SocksProxyAgent url_parse_sample (Array []) = OK empty_agent
  /\ truthy (get http_request "host") = true
  /\ env_chain no_socks_env (empty_chain_call http_request)
     = Throw (Rejection "ECONNREFUSED")
  /\ run no_socks_env (callback empty_agent http_request)
     = ([CChain {| scc_proxies := [];
                   scc_destination := (VString "example.com", VNumber (Int 80));
                   scc_command := "connect" |}],
        Throw (Rejection "ECONNREFUSED")).
Proof.
  split; [reflexivity|]. split; [reflexivity|]. split; [reflexivity|].
  destruct (X18_empty_chain_request url_parse_sample empty_agent no_socks_env
              http_request eq_refl eq_refl) as (_ & _ & H).
  exact (H _ eq_refl).
Defined.

(** ** More on [omit] *)

Lemma replaces_prototype_false (o : object) (keys : list string) :
  ~ ("__proto__" ∈ for_in o /\ ("__proto__" ∉ keys)
     /\ object_or_null (get o "__proto__") = true) ->
  replaces_prototype o keys = false.
Proof.
  intros H. destruct (replaces_prototype o keys) eqn:E; [|done].
  by apply replaces_prototype_true in E.
Qed.

Lemma omit_result_twice (o : object) (keys1 keys2 : list string) :
  omit_result (omit_result o keys1) keys2 = omit_result o (keys1 ++ keys2).
Proof.
  apply map_eq. intros k.
  rewrite !omit_result_lookup, spread_lookup, omit_result_lookup, spread_lookup.
  assert (H12 : k ∈ "__proto__" :: keys1 ++ keys2
                <-> k ∈ "__proto__" :: keys1 \/ k ∈ "__proto__" :: keys2).
  { rewrite !elem_of_cons, elem_of_app. tauto. }
  destruct (decide (k ∈ "__proto__" :: keys2)) as [H2|H2];
    destruct (decide (k ∈ "__proto__" :: keys1)) as [H1|H1];
    rewrite ?(bool_decide_true _ H2), ?(bool_decide_false _ H2),
      ?(bool_decide_true _ H1), ?(bool_decide_false _ H1).
  1-3: rewrite bool_decide_true; [done | tauto].
  rewrite bool_decide_false by tauto.
  destruct (o !! k) as [p|]; [|done]. by destruct (enumerable p).
Qed.

(** X19: when the first call leaves the prototype of its copy alone (the
    object has no enumerable [__proto__] outside the first list that holds
    an object or null), omitting a second list of keys from the result of
    [omit] gives an object with the contents that omitting both lists at
    once gives; each call returns an object of its own and the original is
    left as it was. *)
Theorem X19_omit_twice (σ : Store) (obj : loc) (o : object)
    (keys1 keys2 : list string) :
  σ !! obj = Some o ->
  replaces_prototype o keys1 = false ->
  exists σ1 ret1 σ2 ret2 σ3 ret3,
    omit σ obj keys1 = Some (σ1, ret1)
    /\ omit σ1 ret1 keys2 = Some (σ2, ret2)
    /\ omit σ obj (keys1 ++ keys2) = Some (σ3, ret3)
    /\ σ2 !! ret2 = σ3 !! ret3
    /\ ret1 <> obj /\ ret2 <> ret1 /\ ret2 <> obj
    /\ σ2 !! obj = Some o.
Proof.
  intros Hobj Hrep.
  assert (Hfresh : σ !! fresh (dom σ) = None) by apply not_elem_of_dom, is_fresh.
  assert (Hne : fresh (dom σ) <> obj) by congruence.
  pose (σ1 := <[fresh (dom σ) := omit_result o keys1]> σ).
  assert (H1 : σ1 !! fresh (dom σ) = Some (omit_result o keys1))
    by apply lookup_insert_eq.
  assert (Hobj1 : σ1 !! obj = Some o)
    by (unfold σ1; by rewrite lookup_insert_ne).
  assert (Hfresh1 : σ1 !! fresh (dom σ1) = None)
    by apply not_elem_of_dom, is_fresh.
  assert (Hrep1 : replaces_prototype (omit_result o keys1) keys2 = false).
  { apply replaces_prototype_false. intros [Hin _].
    by apply omit_result_keys in Hin as (_ & _ & ?). }
  assert (Hrep12 : replaces_prototype o (keys1 ++ keys2) = false).
  { apply replaces_prototype_false. intros (Hin & Hout & Hv).
    assert (E : replaces_prototype o keys1 = true); [|congruence].
    apply replaces_prototype_true. split; [done|]. split; [|done].
    intros H. apply Hout, elem_of_app. by left. }
  exists σ1, (fresh (dom σ)),
    (<[fresh (dom σ1) := omit_result (omit_result o keys1) keys2]> σ1),
    (fresh (dom σ1)),
    (<[fresh (dom σ) := omit_result o (keys1 ++ keys2)]> σ),
    (fresh (dom σ)).
  split; [by rewrite (omit_spec _ _ _ _ Hobj), Hrep|].
  split; [by rewrite (omit_spec _ _ _ _ H1), Hrep1|].
  split; [by rewrite (omit_spec _ _ _ _ Hobj), Hrep12|].
  split; [by rewrite !lookup_insert_eq, omit_result_twice|].
  split; [done|]. split; [congruence|]. split; [congruence|].
  rewrite lookup_insert_ne; [done | congruence].
Qed.

Lemma X19_omit_twice_witness :
  request_store !! 0%nat = Some https_request
  /\ replaces_prototype https_request ["host"; "port"] = false
  /\ exists σ1 ret1 σ2 ret2 r,
       omit request_store 0%nat ["host"; "port"] = Some (σ1, ret1)
       /\ omit σ1 ret1 ["path"] = Some (σ2, ret2)
       /\ σ2 !! ret2 = Some r
       /\ r = omit_result https_request ["host"; "port"; "path"].
Proof.
  split; [reflexivity|]. split; [reflexivity|].
  destruct (X19_omit_twice request_store 0%nat https_request
              ["host"; "port"] ["path"] eq_refl eq_refl)
    as (σ1 & ret1 & σ2 & ret2 & σ3 & ret3 & H1 & H2 & H3 & Heq & _).
  exists σ1, ret1, σ2, ret2, (omit_result https_request ["host"; "port"; "path"]).
  split; [exact H1|]. split; [exact H2|]. split; [|reflexivity].
  rewrite Heq.
  rewrite (omit_spec request_store 0%nat https_request _ eq_refl) in H3.
  change (replaces_prototype https_request (["host"; "port"] ++ ["path"]))
    with false in H3.
  injection H3 as <- <-. apply lookup_insert_eq.
Defined.

(** X20: [omit] depends on the set of keys only: their order and their
    repetitions in the argument list change nothing. *)
Theorem X20_omit_keys_as_set (σ : Store) (obj : loc) (keys keys' : list string) :
  (forall k, k ∈ keys <-> k ∈ keys') ->
  omit σ obj keys = omit σ obj keys'.
Proof.
  intros Hkeys. destruct (σ !! obj) as [o|] eqn:Hobj.
  - rewrite !(omit_spec _ _ _ _ Hobj).
    assert (replaces_prototype o keys = replaces_prototype o keys') as ->.
    { unfold replaces_prototype.
      by rewrite (bool_decide_ext _ _ (Hkeys "__proto__")). }
    destruct (replaces_prototype o keys'); [done|]. do 3 f_equal.
    apply map_eq. intros k. rewrite !omit_result_lookup.
    apply (f_equal (fun b : bool => if b then _ else _)).
    apply bool_decide_ext. rewrite !elem_of_cons. by rewrite (Hkeys k).
  - unfold omit. by rewrite Hobj.
Qed.

Lemma X20_omit_keys_as_set_witness :
  omit request_store 0%nat ["host"; "port"]
  = omit request_store 0%nat ["port"; "host"; "port"].
Proof.
  apply X20_omit_keys_as_set. intros k.
  rewrite !elem_of_cons. pose proof (elem_of_nil k). tauto.
Defined.

(** ** The descriptor as an object *)

Lemma lookup_insert_bool (o : object) (key k : string) (q : property) :
  <[key := q]> o !! k = if bool_decide (k = key) then Some q else o !! k.
Proof.
  rewrite lookup_insert. case_decide; case_bool_decide; congruence.
Qed.

(** Splits on each key a lookup is compared with. *)
Ltac by_key k :=
  repeat match goal with
    | |- context [bool_decide (k = ?s)] =>
        destruct (decide (k = s)) as [->|?];
        [reflexivity | rewrite !(bool_decide_false (k = s)) by done]
    end;
  try reflexivity.

Lemma proxy_object_lookup (p : Proxy.t) (k : string) :
  proxy_object p !! k
  = if bool_decide (k = "password")
    then (fun w => hidden_property (VString w)) <$> Proxy.password p
    else if bool_decide (k = "userId")
    then (fun u => hidden_property (VString u)) <$> Proxy.userId p
    else if bool_decide (k = "type")
    then Some (enumerable_property (VNumber (Int (Proxy.type p))))
    else if bool_decide (k = "port")
    then Some (enumerable_property (VNumber (Proxy.port p)))
    else if bool_decide (k = "host")
    then Some (enumerable_property (VString (Proxy.host p)))
    else None.
Proof.
  unfold proxy_object, define_property.
  destruct (Proxy.userId p) as [u|], (Proxy.password p) as [w|];
    cbn [fmap option_fmap option_map];
    rewrite !lookup_insert_bool, lookup_empty; by_key k.
Qed.

(** X21: the object built for a descriptor enumerates exactly [host],
    [port] and [type]; [userId] and [password], when the descriptor has
    them, can be read from it but are not enumerated, so that a copy made by
    [omit] or by spreading does not carry them. *)
Theorem X21_credentials_not_enumerable (p : Proxy.t) :
  (forall k, k ∈ for_in (proxy_object p)
             <-> k = "host" \/ k = "port" \/ k = "type")
  /\ get (proxy_object p) "host" = VString (Proxy.host p)
  /\ get (proxy_object p) "port" = VNumber (Proxy.port p)
  /\ get (proxy_object p) "type" = VNumber (Int (Proxy.type p))
  /\ get (proxy_object p) "userId"
     = from_option VString VUndefined (Proxy.userId p)
  /\ get (proxy_object p) "password"
     = from_option VString VUndefined (Proxy.password p)
  /\ (forall keys,
        omit_result (proxy_object p) keys !! "userId" = None
        /\ omit_result (proxy_object p) keys !! "password" = None).
Proof.
  split; [|split; [|split; [|split; [|split; [|split]]]]].
  - intros k. rewrite elem_of_for_in, proxy_object_lookup. split.
    + intros (q & Hq & Hen). revert Hq.
      destruct (decide (k = "password")) as [->|?].
      { destruct (Proxy.password p); intros [= <-]; discriminate. }
      rewrite (bool_decide_false (k = "password")) by done.
      destruct (decide (k = "userId")) as [->|?].
      { destruct (Proxy.userId p); intros [= <-]; discriminate. }
      rewrite (bool_decide_false (k = "userId")) by done.
      repeat (case_bool_decide; [auto|]). discriminate.
    + intros [-> | [-> | ->]]; eexists; split; reflexivity.
  - unfold get. by rewrite proxy_object_lookup.
  - unfold get. by rewrite proxy_object_lookup.
  - unfold get. by rewrite proxy_object_lookup.
  - unfold get. rewrite proxy_object_lookup. by destruct (Proxy.userId p).
  - unfold get. rewrite proxy_object_lookup. by destruct (Proxy.password p).
  - intros keys. rewrite !omit_result_lookup, !spread_lookup,
      !proxy_object_lookup. cbn.
    split; case_bool_decide; try done.
    + by destruct (Proxy.userId p).
    + by destruct (Proxy.password p).
Qed.
